(** * medusa-mcp: the OpenAPI-to-tool compiler and its argument router

    A shallow embedding of [services/medusa-admin.ts], [services/medusa-store.ts]
    and [index.ts].  Data typed [any] in the source (schema nodes, request
    bodies, call arguments) is kept as untyped JSON values; data the source
    types (operations, parameters, the allow-list) is kept as records. *)

From Stdlib Require Import String Ascii List ZArith Bool Lia DecimalString.
Import ListNotations.
Local Open Scope list_scope.
Local Open Scope string_scope.

Set Implicit Arguments.

(* ================================================================== *)
(** ** Outcomes of a computation: a value, a thrown exception, or a
       recursion that was cut off by the fuel of the model. *)

Inductive exn : Type :=
| TypeError
| Error (msg : string).

Inductive outcome (A : Type) : Type :=
| Ret (a : A)
| Throw (e : exn)
| NoFuel.

Arguments Ret {A} a.
Arguments Throw {A} e.
Arguments NoFuel {A}.

Definition bind {A B} (m : outcome A) (k : A -> outcome B) : outcome B :=
  match m with
  | Ret a => k a
  | Throw e => Throw e
  | NoFuel => NoFuel
  end.

Notation "x <- m ;; k" := (bind m (fun x => k))
  (at level 61, m at next level, right associativity).

(* ================================================================== *)
(** ** JavaScript values and the primitives the services use *)

Module JS.

(** JSON data as it sits in memory after [import ... from "x.json"], plus
    [undefined].  Numbers are kept to the integers.  An object is the list
    of its own entries in the order [Object.entries] lists them (keys that
    are array indices first, ascending, then the others as inserted), with
    no key twice; the key [__proto__], which an assignment treats as the
    prototype slot, is left out of the model. *)
#[warnings="-register-all"]
Inductive value : Type :=
| VUndef
| VNull
| VBool (b : bool)
| VNum (n : Z)
| VStr (s : string)
| VArr (elems : list value)
| VObj (fields : list (string * value)).

(** [!!v] *)
Definition truthy (v : value) : bool :=
  match v with
  | VUndef | VNull => false
  | VBool b => b
  | VNum n => negb (Z.eqb n 0)
  | VStr s => negb (String.eqb s "")
  | VArr _ | VObj _ => true
  end.

(** First entry under a key of an entry list. *)
Fixpoint lookup {A} (k : string) (l : list (string * A)) : option A :=
  match l with
  | [] => None
  | (k', a) :: l' => if String.eqb k' k then Some a else lookup k l'
  end.

(** [acc[k] = a]: overwrite in place when the key exists, else append. *)
Fixpoint obj_set {A} (l : list (string * A)) (k : string) (a : A)
  : list (string * A) :=
  match l with
  | [] => [(k, a)]
  | (k', a') :: l' =>
      if String.eqb k' k then (k', a) :: l' else (k', a') :: obj_set l' k a
  end.

(** [{...l, ...m}] started from [l]. *)
Definition obj_spread {A} (l m : list (string * A)) : list (string * A) :=
  fold_left (fun acc kv => obj_set acc (fst kv) (snd kv)) m l.

Definition has_key {A} (k : string) (l : list (string * A)) : bool :=
  match lookup k l with Some _ => true | None => false end.

(** [v.k] for a non-nullish [v] and one of the fixed keys the services read
    ([$ref], [type], [items], [properties], [required], [requestBody],
    [content], [application/json], [schema]); none of them is a built-in
    property of a string, number, boolean or array. *)
Definition get (v : value) (k : string) : value :=
  match v with
  | VObj fields => match lookup k fields with Some x => x | None => VUndef end
  | _ => VUndef
  end.

(** [v?.k] *)
Definition get_opt (v : value) (k : string) : value :=
  match v with
  | VUndef | VNull => VUndef
  | _ => get v k
  end.

Definition nat_to_string (n : nat) : string :=
  NilZero.string_of_uint (Nat.to_uint n).

Definition Z_to_string (n : Z) : string :=
  NilZero.string_of_int (Z.to_int n).

Fixpoint index_from {A} (i : nat) (l : list A) : list (string * A) :=
  match l with
  | [] => []
  | a :: l' => (nat_to_string i, a) :: index_from (S i) l'
  end.

Fixpoint chars (s : string) : list value :=
  match s with
  | EmptyString => []
  | String c s' => VStr (String c EmptyString) :: chars s'
  end.

(** [Object.entries(v)] for a non-nullish [v]. *)
Definition entries (v : value) : list (string * value) :=
  match v with
  | VObj fields => fields
  | VArr elems => index_from 0 elems
  | VStr s => index_from 0 (chars s)
  | _ => []
  end.

(** [Object.keys(v)] *)
Definition keys (v : value) : list string := map fst (entries v).

(** *** Strings *)

Fixpoint drop_prefix (p s : string) : option string :=
  match p with
  | EmptyString => Some s
  | String a p' =>
      match s with
      | EmptyString => None
      | String b s' => if Ascii.eqb a b then drop_prefix p' s' else None
      end
  end.

(** The text before and after the first occurrence of [pat] in [s]. *)
Fixpoint find_first (pat s : string) : option (string * string) :=
  match drop_prefix pat s with
  | Some rest => Some (EmptyString, rest)
  | None =>
      match s with
      | EmptyString => None
      | String c s' =>
          match find_first pat s' with
          | Some (before, after) => Some (String c before, after)
          | None => None
          end
      end
  end.

(** [s.includes(pat)] *)
Definition includes (s pat : string) : bool :=
  match find_first pat s with Some _ => true | None => false end.

(** The replacement text of [String.prototype.replace] when the pattern is a
    string: [$$], [$&], [$`] and [$'] are expanded; with no capture groups
    every other [$] sequence stands for itself. *)
Fixpoint expand (matched before after template : string) : string :=
  match template with
  | EmptyString => EmptyString
  | String c r =>
      if Ascii.eqb c "$" then
        match r with
        | EmptyString => String c EmptyString
        | String d r' =>
            if Ascii.eqb d "$" then String "$" (expand matched before after r')
            else if Ascii.eqb d "&" then matched ++ expand matched before after r'
            else if Ascii.eqb d "`" then before ++ expand matched before after r'
            else if Ascii.eqb d "'" then after ++ expand matched before after r'
            else String c (expand matched before after r)
        end
      else String c (expand matched before after r)
  end.

(** [s.replace(pat, replacement)] with a string pattern: only the first
    occurrence is replaced. *)
Definition replace (s pat replacement : string) : string :=
  match find_first pat s with
  | Some (before, after) =>
      before ++ expand pat before after replacement ++ after
  | None => s
  end.

Fixpoint join (sep : string) (l : list string) : string :=
  match l with
  | [] => EmptyString
  | [x] => x
  | x :: l' => x ++ sep ++ join sep l'
  end.

(** [String(v)].  Exact for the integers whose magnitude is below 10^21,
    which JavaScript prints in plain decimal. *)
Fixpoint ToString (v : value) : string :=
  match v with
  | VUndef => "undefined"
  | VNull => "null"
  | VBool true => "true"
  | VBool false => "false"
  | VNum n => Z_to_string n
  | VStr s => s
  | VArr elems =>
      join ","
        ((fix each (l : list value) : list string :=
            match l with
            | [] => []
            | VUndef :: l' => EmptyString :: each l'
            | VNull :: l' => EmptyString :: each l'
            | x :: l' => ToString x :: each l'
            end) elems)
  | VObj _ => "[object Object]"
  end.

(** [v === k] for a string constant [k]; it is also what [arr.includes(k)]
    asks of each element. *)
Definition is_str (k : string) (v : value) : bool :=
  match v with VStr s => String.eqb s k | _ => false end.

End JS.

Import JS.

(* ================================================================== *)
(** ** The interface document *)

(** Modelled from the spec: the declarations of [../types/admin-json] and
    [../types/store-json] ([Parameter], here [Param], and [SdkRequestType])
    are not among the sources.  A parameter has a name, a location and a
    schema; an operation has an identifier, a description, parameters and a
    request body, each of which may be missing; a path item has at most one
    operation per method.  The location stays a string, as the services
    compare it with ["header"], ["path"] and ["query"]; the schema and the
    request body stay untyped, as the services cast them to [any]. *)
Record Param : Type := {
  p_name : string;
  p_in : string;
  p_schema : value
}.

Record Operation : Type := {
  operationId : option string;
  op_description : option string;
  op_parameters : option (list Param);
  requestBody : value
}.

Record SdkRequestType : Type := {
  get_ : option Operation;
  post_ : option Operation;
  delete_ : option Operation
}.

(** The imported [admin.json] / [store.json]: its [paths] in key order and
    its [components.schemas] table ([None] when [components] or [schemas]
    is missing).  Keys inherited from [Object.prototype] are not modelled. *)
Record Document : Type := {
  paths : list (string * SdkRequestType);
  schemas : option (list (string * value))
}.

(* ================================================================== *)
(** ** Validators built through [z] *)

#[warnings="-register-all"]
Inductive zod : Type :=
| ZString
| ZNumber
| ZBoolean
| ZAny
| ZArray (item : zod)
| ZObject (shape : list (string * zod))
| ZOptional (inner : zod).

(** Whether the validator carries the [.optional()] marker. *)
Definition is_optional (z : zod) : bool :=
  match z with ZOptional _ => true | _ => false end.

(** [makeOptional ? z.optional() : z] *)
Definition wrap (makeOptional : bool) (z : zod) : zod :=
  if makeOptional then ZOptional z else z.

(* ================================================================== *)
(** ** Schema resolution and compilation

    [resolveSchemaRef] and [convertSchemaPropertyToZod] are the same text in
    both services, up to the document they close over. *)

Section Compiler.

Variable doc : Document.

(** [doc.components?.schemas?.[refPath]] *)
Definition schema_at (refPath : string) : value :=
  match schemas doc with
  | Some table => match lookup refPath table with Some s => s | None => VUndef end
  | None => VUndef
  end.

(** [x || null] *)
Definition or_null (x : value) : value := if truthy x then x else VNull.

Definition resolveSchemaRef (schema : value) : outcome value :=
  if negb (truthy schema) then Ret VNull
  else if truthy (get schema "$ref") then
    match get schema "$ref" with
    | VStr ref =>
        let refPath := replace ref "#/components/schemas/" "" in
        Ret (or_null (schema_at refPath))
    | _ => Throw TypeError  (* [.replace] is not a function *)
    end
  else Ret schema.

(** [let r = x; if (x.$ref) r = this.resolveSchemaRef(x, doc)], the step
    taken on the node itself and on the [items] of an array. *)
Definition resolve_if_ref (x : value) : outcome value :=
  if truthy (get x "$ref") then resolveSchemaRef x else Ret x.

(** [required?.includes(key)], as a boolean: an absent list gives
    [undefined], an array is searched for the key, a string is searched for
    the key as a substring, anything else has no [includes] to call. *)
Definition required_includes (required : value) (key : string) : outcome bool :=
  match required with
  | VUndef | VNull => Ret false
  | VArr elems => Ret (existsb (is_str key) elems)
  | VStr s => Ret (includes s key)
  | _ => Throw TypeError
  end.

Fixpoint convertSchemaPropertyToZod (fuel : nat) (prop : value)
    (makeOptional : bool) : outcome zod :=
  match fuel with
  | O => NoFuel
  | S fuel' =>
    if negb (truthy prop) then Ret (wrap makeOptional ZAny)
    else
      resolvedProp <- resolve_if_ref prop ;;
      if negb (truthy resolvedProp) then Ret (wrap makeOptional ZAny)
      else
        zodSchema <-
          (let type := get resolvedProp "type" in
           if is_str "string" type then Ret ZString
           else if is_str "number" type || is_str "integer" type then Ret ZNumber
           else if is_str "boolean" type then Ret ZBoolean
           else if is_str "array" type then
             let items := get resolvedProp "items" in
             if truthy items then
               itemSchema <- resolve_if_ref items ;;
               if truthy itemSchema then
                 itemZodSchema <- convertSchemaPropertyToZod fuel' itemSchema false ;;
                 Ret (ZArray itemZodSchema)
               else Ret (ZArray ZAny)
             else Ret (ZArray ZAny)
           else if is_str "object" type then
             let properties := get resolvedProp "properties" in
             if truthy properties then
               nestedSchema <-
                 fold_left
                   (fun acc kv =>
                      acc <- acc ;;
                      isRequired <-
                        required_includes (get resolvedProp "required") (fst kv) ;;
                      z <- convertSchemaPropertyToZod fuel' (snd kv)
                             (negb isRequired) ;;
                      Ret (obj_set acc (fst kv) z))
                   (entries properties) (Ret []) ;;
               Ret (ZObject nestedSchema)
             else Ret (ZObject [])
           else Ret ZAny) ;;
        Ret (wrap makeOptional zodSchema)
  end.

End Compiler.

(* ================================================================== *)
(** ** Tools and their call-time handler *)

(** What the handler hands to [sdk.client.fetch]; the response comes back
    to the caller as it is. *)
Record Request : Type := {
  r_path : string;
  r_method : string;
  r_headers : list (string * string);
  r_query : list (string * string);
  r_body : option (list (string * value))
}.

(** The record a [defineTool] callback returns.  The handler is a closure;
    its first argument here is the bearer credential it reads when called
    ([this.adminToken], [process.env.PUBLISHABLE_KEY]). *)
Record Tool : Type := {
  name : string;
  description : option string;
  inputSchema : list (string * zod);
  handler : value -> list (string * value) -> Request
}.

(** Modelled from the spec: [defineTool] of [../utils/define-tools] is not
    among the sources; it runs its callback at once and the record the
    callback returns is what [index.ts] reads [name], [description],
    [inputSchema] and [handler] from. *)
Definition defineTool (callback : outcome Tool) : outcome Tool := callback.

(** The three argument bags of the handler. *)
Record Routed : Type := {
  pathParams : list (string * value);
  queryParams : list (string * value);
  bodyParams : list (string * value)
}.

Definition find_param (parameters : list Param) (key : string) : option Param :=
  find (fun p => String.eqb (p_name p) key) parameters.

(** One turn of [Object.entries(input).forEach(...)]. *)
Definition route_entry (parameters : list Param) (bodyPropertyNames : list string)
    (acc : Routed) (kv : string * value) : Routed :=
  let key := fst kv in
  let value := snd kv in
  match find_param parameters key with
  | Some param =>
      if String.eqb (p_in param) "path" then
        {| pathParams := obj_set (pathParams acc) key value;
           queryParams := queryParams acc;
           bodyParams := bodyParams acc |}
      else if String.eqb (p_in param) "query" then
        {| pathParams := pathParams acc;
           queryParams := obj_set (queryParams acc) key value;
           bodyParams := bodyParams acc |}
      else acc
  | None =>
      if existsb (String.eqb key) bodyPropertyNames then
        {| pathParams := pathParams acc;
           queryParams := queryParams acc;
           bodyParams := obj_set (bodyParams acc) key value |}
      else acc
  end.

Definition route (parameters : list Param) (bodyPropertyNames : list string)
    (input : list (string * value)) : Routed :=
  fold_left (route_entry parameters bodyPropertyNames) input
    {| pathParams := []; queryParams := []; bodyParams := [] |}.

(** [requestBodySchema?.properties ? new Set(Object.keys(...)) : new Set()] *)
Definition bodyPropertyNames_of (requestBodySchema : value) : list string :=
  let properties := get_opt requestBodySchema "properties" in
  if truthy properties then keys properties else [].

(** [finalPath = finalPath.replace(`{${key}}`, String(value))], once per
    routed path argument, each on the path left by the one before. *)
Definition substitute (refPath : string) (pathParams : list (string * value))
  : string :=
  fold_left
    (fun finalPath kv =>
       replace finalPath ("{" ++ fst kv ++ "}") (ToString (snd kv)))
    pathParams refPath.

(** [new URLSearchParams(queryParams)] *)
Definition URLSearchParams (queryParams : list (string * value))
  : list (string * string) :=
  map (fun kv => (fst kv, ToString (snd kv))) queryParams.

(** The handler of both services, which differ in the credential only. *)
Definition run_handler (refPath method : string) (parameters : list Param)
    (requestBodySchema : value) (credential : value)
    (input : list (string * value)) : Request :=
  let bodyPropertyNames := bodyPropertyNames_of requestBodySchema in
  let routed := route parameters bodyPropertyNames input in
  let finalPath := substitute refPath (pathParams routed) in
  let query := URLSearchParams (queryParams routed) in
  let headers :=
    [("Content-Type", "application/json");
     ("Accept", "application/json");
     ("Authorization", "Bearer " ++ ToString credential)] in
  if String.eqb method "get" then
    {| r_path := finalPath; r_method := method; r_headers := headers;
       r_query := query; r_body := None |}
  else
    {| r_path := finalPath; r_method := method; r_headers := headers;
       r_query := query; r_body := Some (bodyParams routed) |}.

(* ================================================================== *)
(** ** Per-path tool compilation *)

(** The locals of [wrapPath] once its method branches have run.
    [sel_parameters = None] is a [parameters] that is no array (the [""] or
    [undefined] a [get] without parameters leaves behind). *)
Record Selection : Type := {
  sel_method : string;
  sel_name : option string;
  sel_description : option string;
  sel_parameters : option (list Param);
  sel_requestBodySchema : value
}.

(** [parameters ?? []] *)
Definition or_empty (ps : option (list Param)) : option (list Param) :=
  match ps with Some l => Some l | None => Some [] end.

(** [!name] *)
Definition no_name (n : option string) : bool :=
  match n with
  | None => true
  | Some s => String.eqb s ""
  end.

(** [`${x}`] for a string or [undefined] *)
Definition interpolate (d : option string) : string :=
  match d with Some s => s | None => "undefined" end.

Section ToolCompiler.

Variable doc : Document.
Variable fuel : nat.

(** The request-body part of the [post] branch. *)
Definition post_body_schema (postMethod : Operation) : outcome value :=
  let schema :=
    get_opt (get_opt (get_opt (requestBody postMethod) "content")
               "application/json") "schema" in
  if truthy schema then resolveSchemaRef doc schema else Ret VNull.

(** [parameters.filter(p => p.in != "header").reduce(...)] *)
Definition parameterSchema_of (parameters : option (list Param))
  : outcome (list (string * zod)) :=
  match parameters with
  | None => Throw TypeError  (* [.filter] is not a function *)
  | Some ps =>
      fold_left
        (fun acc param =>
           acc <- acc ;;
           z <- convertSchemaPropertyToZod doc fuel (p_schema param) true ;;
           Ret (obj_set acc (p_name param) z))
        (filter (fun p => negb (String.eqb (p_in p) "header")) ps)
        (Ret [])
  end.

Definition bodySchema_of (requestBodySchema : value)
  : outcome (list (string * zod)) :=
  let properties := get_opt requestBodySchema "properties" in
  if truthy properties then
    fold_left
      (fun acc kv =>
         acc <- acc ;;
         z <- convertSchemaPropertyToZod doc fuel (snd kv) true ;;
         Ret (obj_set acc (fst kv) z))
      (entries properties) (Ret [])
  else Ret [].

(** Everything in [wrapPath] after the name check; the two services differ
    in how they write the name and the description. *)
Definition build_tool (refPath : string) (sel : Selection)
    (tool_name : string) (tool_description : option string) : outcome Tool :=
  parameterSchema <- parameterSchema_of (sel_parameters sel) ;;
  bodySchema <- bodySchema_of (sel_requestBodySchema sel) ;;
  Ret {| name := tool_name;
         description := tool_description;
         inputSchema := obj_spread (obj_spread [] parameterSchema) bodySchema;
         handler :=
           run_handler refPath (sel_method sel)
             (match sel_parameters sel with Some ps => ps | None => [] end)
             (sel_requestBodySchema sel) |}.

End ToolCompiler.

(** [l.map(f)], where a throw ends the loop. *)
Fixpoint map_outcome {A B} (f : A -> outcome B) (l : list A) : outcome (list B) :=
  match l with
  | [] => Ret []
  | a :: l' =>
      b <- f a ;;
      bs <- map_outcome f l' ;;
      Ret (b :: bs)
  end.

(** *** [MedusaAdminService] *)

Module Admin.

Section Service.

Variable adminJson : Document.
Variable fuel : nat.

(** The [get] / [post] / [delete] branches of [wrapPath]. *)
Definition select (refFunction : SdkRequestType) : outcome Selection :=
  match get_ refFunction with
  | Some op =>
      Ret {| sel_method := "get";
             sel_name := operationId op;
             sel_description := op_description op;
             sel_parameters := op_parameters op;
             sel_requestBodySchema := VNull |}
  | None =>
      match post_ refFunction with
      | Some op =>
          requestBodySchema <- post_body_schema adminJson op ;;
          Ret {| sel_method := "post";
                 sel_name := operationId op;
                 sel_description := op_description op;
                 sel_parameters := or_empty (op_parameters op);
                 sel_requestBodySchema := requestBodySchema |}
      | None =>
          match delete_ refFunction with
          | Some op =>
              Ret {| sel_method := "delete";
                     sel_name := operationId op;
                     sel_description := op_description op;
                     sel_parameters := or_empty (op_parameters op);
                     sel_requestBodySchema := VNull |}
          | None =>
              Ret {| sel_method := "get";
                     sel_name := None;
                     sel_description := None;
                     sel_parameters := Some [];
                     sel_requestBodySchema := VNull |}
          end
      end
  end.

Definition wrapPath (refPath : string) (refFunction : SdkRequestType)
  : outcome Tool :=
  defineTool
    (sel <- select refFunction ;;
     if no_name (sel_name sel) then
       Throw (Error ("No name found for path: " ++ refPath))
     else
       build_tool adminJson fuel refPath sel
         ("Admin" ++ interpolate (sel_name sel))
         (Some ("This tool helps store administors. "
                ++ interpolate (sel_description sel)))).

Definition defineTools : outcome (list Tool) :=
  map_outcome (fun pr => wrapPath (fst pr) (snd pr)) (paths adminJson).

End Service.

End Admin.

(** *** [MedusaStoreService] *)

Module Store.

Section Service.

Variable storeJson : Document.
Variable fuel : nat.

(** The [get] / [post] branches of [wrapPath]; this service has no
    [delete] branch. *)
Definition select (refFunction : SdkRequestType) : outcome Selection :=
  match get_ refFunction with
  | Some op =>
      Ret {| sel_method := "get";
             sel_name := operationId op;
             sel_description := op_description op;
             sel_parameters := op_parameters op;
             sel_requestBodySchema := VNull |}
  | None =>
      match post_ refFunction with
      | Some op =>
          requestBodySchema <- post_body_schema storeJson op ;;
          Ret {| sel_method := "post";
                 sel_name := operationId op;
                 sel_description := op_description op;
                 sel_parameters := or_empty (op_parameters op);
                 sel_requestBodySchema := requestBodySchema |}
      | None =>
          Ret {| sel_method := "get";
                 sel_name := None;
                 sel_description := None;
                 sel_parameters := Some [];
                 sel_requestBodySchema := VNull |}
      end
  end.

Definition wrapPath (refPath : string) (refFunction : SdkRequestType)
  : outcome Tool :=
  defineTool
    (sel <- select refFunction ;;
     match sel_name sel with
     | Some name =>
         if no_name (sel_name sel) then
           Throw (Error "No name found for the function")
         else
           build_tool storeJson fuel refPath sel name (sel_description sel)
     | None => Throw (Error "No name found for the function")
     end).

Definition defineTools : outcome (list Tool) :=
  map_outcome (fun pr => wrapPath (fst pr) (snd pr)) (paths storeJson).

End Service.

End Store.

(* ================================================================== *)
(** ** [index.ts]: assembling and filtering the tool sequence *)

Record AllowedToolsConfig : Type := {
  allowedTools : option (list string);
  allowAllTools : bool
}.

Module Main.

Section Startup.

Variable storeJson adminJson : Document.
Variable fuel : nat.
Variable allowedToolsConfig : AllowedToolsConfig.

(** The [try { await init(); tools = [...] } catch { tools = [...] }] of
    [main]; [login] is what [sdk.auth.login] came back with. *)
Definition assemble (login : outcome string) : outcome (list Tool) :=
  match
    (adminToken <- login ;;
     store <- Store.defineTools storeJson fuel ;;
     admin <- Admin.defineTools adminJson fuel ;;
     Ret (store ++ admin)%list)
  with
  | Ret tools => Ret tools
  | Throw error => Store.defineTools storeJson fuel
  | NoFuel => NoFuel
  end.

(** The allow-list step of [main]. *)
Definition filter_tools (tools : list Tool) : list Tool :=
  if negb (allowAllTools allowedToolsConfig)
     && match allowedTools allowedToolsConfig with
        | Some names => Nat.ltb 0 (length names)
        | None => false
        end
  then
    match allowedTools allowedToolsConfig with
    | Some allowedToolNames =>
        filter (fun tool => existsb (String.eqb (name tool)) allowedToolNames) tools
    | None => tools
    end
  else tools.

(** The tools [main] registers with the server. *)
Definition main (login : outcome string) : outcome (list Tool) :=
  tools <- assemble login ;;
  Ret (filter_tools tools).

End Startup.

End Main.

(* ================================================================== *)
(** * The design's vocabulary

    Definitions that follow the words of the design rather than the text of
    the services; the properties below compare the two. *)

(** One turn of a [reduce] that converts an element and stores the result
    under the element's key; the three [reduce] calls of the services have
    this shape. *)
Definition obj_step {X B : Type} (key : X -> string) (f : X -> outcome B)
    (acc : outcome (list (string * B))) (x : X)
  : outcome (list (string * B)) :=
  acc <- acc ;; z <- f x ;; Ret (obj_set acc (key x) z).

(** The validator of one declared property of an object node. *)
Definition property_validator (doc : Document) (fuel : nat) (required : value)
    (kv : string * value) : outcome zod :=
  isRequired <- required_includes required (fst kv) ;;
  convertSchemaPropertyToZod doc fuel (snd kv) (negb isRequired).

(** A [required] that is a list, or is absent (then no name is in it). *)
Definition required_is (node : value) (required : list value) : Prop :=
  get node "required" = VArr required
  \/ (get node "required" = VUndef /\ required = []).

(** Nesting depth of a value. *)
Fixpoint depth (v : value) : nat :=
  match v with
  | VArr elems =>
      S ((fix deepest (l : list value) : nat :=
            match l with
            | [] => 0
            | x :: l' => Nat.max (depth x) (deepest l')
            end) elems)
  | VObj fields =>
      S ((fix deepest (l : list (string * value)) : nat :=
            match l with
            | [] => 0
            | (_, x) :: l' => Nat.max (depth x) (deepest l')
            end) fields)
  | _ => 0
  end.

(** No object anywhere inside the value carries a truthy [$ref]. *)
Fixpoint ref_free (v : value) : bool :=
  match v with
  | VArr elems =>
      (fix all (l : list value) : bool :=
         match l with
         | [] => true
         | x :: l' => ref_free x && all l'
         end) elems
  | VObj fields =>
      negb (truthy (match lookup "$ref" fields with
                    | Some x => x
                    | None => VUndef
                    end))
      && (fix all (l : list (string * value)) : bool :=
            match l with
            | [] => true
            | (_, x) :: l' => ref_free x && all l'
            end) fields
  | _ => true
  end.

(** The precedence policy: of the methods in a given order, the first one
    the path item defines. *)
Inductive method : Type := GET | POST | DELETE.

Definition method_name (m : method) : string :=
  match m with GET => "get" | POST => "post" | DELETE => "delete" end.

Definition operation_at (m : method) (refFunction : SdkRequestType)
  : option Operation :=
  match m with
  | GET => get_ refFunction
  | POST => post_ refFunction
  | DELETE => delete_ refFunction
  end.

Fixpoint first_present (order : list method) (refFunction : SdkRequestType)
  : option (method * Operation) :=
  match order with
  | [] => None
  | m :: rest =>
      match operation_at m refFunction with
      | Some op => Some (m, op)
      | None => first_present rest refFunction
      end
  end.

(** The order of the design, and the methods the store service looks at. *)
Definition precedence : list method := [GET; POST; DELETE].
Definition store_order : list method := [GET; POST].

(** The identifier of the operation the policy picks, if any. *)
Definition selected_name (order : list method) (refFunction : SdkRequestType)
  : option string :=
  match first_present order refFunction with
  | Some (_, op) => operationId op
  | None => None
  end.

(** The locals [wrapPath] is left with when it has read operation [op]
    under method [m]. *)
Definition selection_of (doc : Document) (m : method) (op : Operation)
  : outcome Selection :=
  requestBodySchema <-
    match m with POST => post_body_schema doc op | _ => Ret VNull end ;;
  Ret {| sel_method := method_name m;
         sel_name := operationId op;
         sel_description := op_description op;
         sel_parameters :=
           match m with
           | GET => op_parameters op
           | _ => or_empty (op_parameters op)
           end;
         sel_requestBodySchema := requestBodySchema |}.

Definition no_selection : Selection :=
  {| sel_method := "get"; sel_name := None; sel_description := None;
     sel_parameters := Some []; sel_requestBodySchema := VNull |}.

Definition select_by (doc : Document) (order : list method)
    (refFunction : SdkRequestType) : outcome Selection :=
  match first_present order refFunction with
  | Some (m, op) => selection_of doc m op
  | None => Ret no_selection
  end.

(** [before] is where the first occurrence of [pat] in [s] starts, and
    [after] is what follows it. *)
Definition first_occurrence (pat s before after : string) : Prop :=
  s = before ++ pat ++ after
  /\ forall before' after',
       s = before' ++ pat ++ after' ->
       String.length before <= String.length before'.

(** A text without [$]. *)
Fixpoint no_dollar (s : string) : bool :=
  match s with
  | EmptyString => true
  | String c r => negb (Ascii.eqb c "$") && no_dollar r
  end.

(** Where the router sends an argument: to the bag of a location when the
    first parameter of that name has the location, to the body when no
    parameter has the name and the body schema declares it. *)
Definition routed_to (parameters : list Param) (loc : string)
    (kv : string * value) : bool :=
  match find_param parameters (fst kv) with
  | Some param => String.eqb (p_in param) loc
  | None => false
  end.

Definition routed_to_body (parameters : list Param) (bodyPropertyNames : list string)
    (kv : string * value) : bool :=
  match find_param parameters (fst kv) with
  | Some _ => false
  | None => existsb (String.eqb (fst kv)) bodyPropertyNames
  end.

(** [l] is [l'] with some elements left out, the rest in their order. *)
Inductive subseq {A : Type} : list A -> list A -> Prop :=
| subseq_nil : subseq [] []
| subseq_skip x l l' : subseq l l' -> subseq l (x :: l')
| subseq_keep x l l' : subseq l l' -> subseq (x :: l) (x :: l').

(** ** Four sentences of the design, as they are worded *)

(** C2: any reference whose name is in the table compiles as its table
    entry does. *)
Definition reference_compiles_as_entry : Prop :=
  forall (doc : Document) (fuel : nat) (prop : value) (ref : string)
         (table : list (string * value)) (target : value) (opt : bool),
    get prop "$ref" = VStr ref -> ref <> "" ->
    schemas doc = Some table ->
    lookup (replace ref "#/components/schemas/" "") table = Some target ->
    convertSchemaPropertyToZod doc fuel prop opt =
    convertSchemaPropertyToZod doc fuel target opt.

(** C1, on the store surface: the operation [wrapPath] reads is the first
    present in the order get, post, delete. *)
Definition store_selects_in_full_order : Prop :=
  forall (doc : Document) (refFunction : SdkRequestType) (m : method)
         (op : Operation) (sel : Selection),
    first_present precedence refFunction = Some (m, op) ->
    Store.select doc refFunction = Ret sel ->
    sel_method sel = method_name m /\ sel_name sel = operationId op.

(** C8, on the admin surface: without a declared description the part
    after the preamble is empty. *)
Definition description_falls_back_to_empty : Prop :=
  forall (doc : Document) (fuel : nat) (refPath : string)
         (refFunction : SdkRequestType) (t : Tool) (m : method) (op : Operation),
    Admin.wrapPath doc fuel refPath refFunction = Ret t ->
    first_present precedence refFunction = Some (m, op) ->
    op_description op = None ->
    description t = Some "This tool helps store administors. ".

(** C5: a path argument takes the place of the first [{name}] of the
    template, as its string. *)
Definition path_argument_replaces_placeholder : Prop :=
  forall (refPath method : string) (parameters : list Param)
         (requestBodySchema credential : value) (key : string) (v : value)
         (param : Param) (before after : string),
    find_param parameters key = Some param -> p_in param = "path" ->
    first_occurrence ("{" ++ key ++ "}") refPath before after ->
    r_path (run_handler refPath method parameters requestBodySchema credential
              [(key, v)])
    = before ++ ToString v ++ after.

(** ** Sample documents, operations and calls *)

(** A table in which [Alias] is itself a reference to [Name]. *)
Definition alias_doc : Document :=
  {| paths := [];
     schemas :=
       Some [("Alias", VObj [("$ref", VStr "#/components/schemas/Name")]);
             ("Name", VObj [("type", VStr "string")])] |}.

(** An object node with a required [id] and a free [note]. *)
Definition item_node : value :=
  VObj [("type", VStr "object");
        ("required", VArr [VStr "id"]);
        ("properties",
         VObj [("id", VObj [("type", VStr "string")]);
               ("note", VObj [("type", VStr "string")])])].

(** An array of references to [Name], and one of references to nothing. *)
Definition names_node : value :=
  VObj [("type", VStr "array");
        ("items", VObj [("$ref", VStr "#/components/schemas/Name")])].

Definition dangling_node : value :=
  VObj [("type", VStr "array");
        ("items", VObj [("$ref", VStr "#/components/schemas/Missing")])].

(** A path item that defines [delete] alone. *)
Definition delete_thing : Operation :=
  {| operationId := Some "DeleteThing"; op_description := Some "Delete a thing.";
     op_parameters := Some []; requestBody := VUndef |}.

Definition delete_only : SdkRequestType :=
  {| get_ := None; post_ := None; delete_ := Some delete_thing |}.

(** A path item with both a [get] and a [post], and the same without the
    [post]. *)
Definition list_items : Operation :=
  {| operationId := Some "ListItems"; op_description := Some "List the items.";
     op_parameters := Some []; requestBody := VUndef |}.

Definition create_item : Operation :=
  {| operationId := Some "CreateItem"; op_description := Some "Create an item.";
     op_parameters := Some []; requestBody := VUndef |}.

Definition get_and_post : SdkRequestType :=
  {| get_ := Some list_items; post_ := Some create_item; delete_ := None |}.

Definition get_alone : SdkRequestType :=
  {| get_ := Some list_items; post_ := None; delete_ := None |}.

(** A [get] without [operationId], and a path item with no method at all. *)
Definition unnamed_get : SdkRequestType :=
  {| get_ := Some {| operationId := None; op_description := Some "List.";
                     op_parameters := Some []; requestBody := VUndef |};
     post_ := Some create_item; delete_ := None |}.

Definition no_method : SdkRequestType :=
  {| get_ := None; post_ := None; delete_ := None |}.

(** The scenario of the design: [{get: {operationId: "Ping", parameters: []}}]. *)
Definition ping : Operation :=
  {| operationId := Some "Ping"; op_description := None;
     op_parameters := Some []; requestBody := VUndef |}.

Definition ping_item : SdkRequestType :=
  {| get_ := Some ping; post_ := None; delete_ := None |}.

Definition ping_doc : Document :=
  {| paths := [("/ping", ping_item)]; schemas := None |}.

Definition items_doc : Document :=
  {| paths := [("/items", get_and_post)]; schemas := None |}.

(** The routing example of the design: [/items/{id}], path parameter [id],
    body field [name]. *)
Definition id_param : Param :=
  {| p_name := "id"; p_in := "path"; p_schema := VObj [("type", VStr "string")] |}.

Definition item_body : value :=
  VObj [("type", VStr "object");
        ("properties", VObj [("name", VObj [("type", VStr "string")])])].

Definition widget_call : list (string * value) :=
  [("id", VStr "42"); ("name", VStr "widget"); ("extra", VStr "x")].

(** A [post] whose header parameter [name] and cookie parameter [tag] share
    their names with body fields. *)
Definition shadowing_params : list Param :=
  [ id_param;
    {| p_name := "name"; p_in := "header"; p_schema := VObj [("type", VStr "string")] |};
    {| p_name := "tag"; p_in := "cookie"; p_schema := VObj [("type", VStr "integer")] |} ].

Definition tagged_body : value :=
  VObj [("type", VStr "object");
        ("properties",
         VObj [("name", VObj [("type", VStr "string")]);
               ("tag", VObj [("type", VStr "string")])])].

Definition shadowing_selection : Selection :=
  {| sel_method := "post"; sel_name := Some "CreateItem";
     sel_description := None; sel_parameters := Some shadowing_params;
     sel_requestBodySchema := tagged_body |}.

(** A tool that has nothing but a name. *)
Definition stub_tool (n : string) : Tool :=
  {| name := n; description := None; inputSchema := [];
     handler := run_handler "/" "get" [] VNull |}.

(* ================================================================== *)
(** * Properties *)

(** ** Entry lists *)

Lemma lookup_obj_set_same {A} (l : list (string * A)) k a :
  lookup k (obj_set l k a) = Some a.
Proof.
  induction l as [|[k' a'] l IH]; simpl.
  - now rewrite String.eqb_refl.
  - destruct (String.eqb k' k) eqn:E; simpl; rewrite E; auto.
Qed.

Lemma lookup_obj_set_other {A} (l : list (string * A)) k k' a :
  k' <> k -> lookup k' (obj_set l k a) = lookup k' l.
Proof.
  intros Hne. induction l as [|[k0 a0] l IH]; simpl.
  - destruct (String.eqb k k') eqn:E; auto.
    apply String.eqb_eq in E. congruence.
  - destruct (String.eqb k0 k) eqn:E; simpl.
    + apply String.eqb_eq in E. subst k0.
      destruct (String.eqb k k') eqn:E'; auto.
      apply String.eqb_eq in E'. congruence.
    + destruct (String.eqb k0 k'); auto.
Qed.

Lemma lookup_In {A} (l : list (string * A)) k a :
  lookup k l = Some a -> In (k, a) l.
Proof.
  induction l as [|[k' a'] l IH]; simpl; [discriminate|].
  destruct (String.eqb k' k) eqn:E; intros H.
  - apply String.eqb_eq in E. inversion H. subst. now left.
  - right. auto.
Qed.

Lemma In_lookup {A} (l : list (string * A)) k a :
  In (k, a) l -> exists a', lookup k l = Some a'.
Proof.
  induction l as [|[k' a'] l IH]; simpl; [tauto|].
  intros [H|H]; destruct (String.eqb k' k) eqn:E; eauto.
  inversion H. subst. rewrite String.eqb_refl in E. discriminate.
Qed.

Lemma keys_obj_set_fresh {A} (l : list (string * A)) k a :
  lookup k l = None -> obj_set l k a = (l ++ [(k, a)])%list.
Proof.
  induction l as [|[k' a'] l IH]; simpl; auto.
  destruct (String.eqb k' k); [discriminate|].
  intros H. now rewrite IH.
Qed.

Lemma existsb_is_str key elems :
  existsb (is_str key) elems = true <-> In (VStr key) elems.
Proof.
  rewrite existsb_exists. split.
  - intros [x [Hin Hx]]. destruct x; simpl in Hx; try discriminate.
    apply String.eqb_eq in Hx. now subst.
  - intros H. exists (VStr key). split; auto. simpl. apply String.eqb_refl.
Qed.

Lemma existsb_eqb_In key names :
  existsb (String.eqb key) names = true <-> In key names.
Proof.
  rewrite existsb_exists. split.
  - intros [x [Hin Hx]]. apply String.eqb_eq in Hx. now subst.
  - intros H. exists key. split; auto. apply String.eqb_refl.
Qed.

(** ** Folding conversions into an object, as the three [reduce] calls do *)

Section ObjFold.

Variables (X B : Type) (key : X -> string) (f : X -> outcome B).

Lemma obj_fold_throw l e : fold_left (obj_step key f) l (Throw e) = Throw e.
Proof. induction l; simpl; auto. Qed.

Lemma obj_fold_nofuel l : fold_left (obj_step key f) l NoFuel = NoFuel.
Proof. induction l; simpl; auto. Qed.

Lemma obj_fold_cons x l acc :
  fold_left (obj_step key f) (x :: l) (Ret acc) =
  match f x with
  | Ret z => fold_left (obj_step key f) l (Ret (obj_set acc (key x) z))
  | Throw e => Throw e
  | NoFuel => NoFuel
  end.
Proof.
  simpl. unfold obj_step at 2. cbn [bind].
  destruct (f x); cbn [bind]; auto using obj_fold_throw, obj_fold_nofuel.
Qed.

(** Whatever ends up under a key came from the start object or from the
    conversion of an element with that key. *)
Lemma obj_fold_lookup l : forall acc shape k zk,
  fold_left (obj_step key f) l (Ret acc) = Ret shape ->
  lookup k shape = Some zk ->
  lookup k acc = Some zk \/ exists x, In x l /\ key x = k /\ f x = Ret zk.
Proof.
  induction l as [|x l IH]; intros acc shape k zk Hfold Hk.
  - simpl in Hfold. inversion Hfold. subst. now left.
  - rewrite obj_fold_cons in Hfold. destruct (f x) as [z| |] eqn:Hf; try discriminate.
    destruct (IH _ _ _ _ Hfold Hk) as [H|[y [Hy [Hky Hfy]]]].
    + destruct (string_dec k (key x)) as [->|Hne].
      * rewrite lookup_obj_set_same in H. inversion H. subst.
        right. exists x. simpl. auto.
      * rewrite lookup_obj_set_other in H by auto. now left.
    + right. exists y. simpl. auto.
Qed.

(** Every element leaves an entry under its key. *)
Lemma obj_fold_keys l : forall acc shape,
  fold_left (obj_step key f) l (Ret acc) = Ret shape ->
  forall k, (has_key k acc = true \/ In k (map key l)) -> has_key k shape = true.
Proof.
  induction l as [|x l IH]; intros acc shape Hfold k Hk.
  - simpl in *. inversion Hfold. subst. tauto.
  - rewrite obj_fold_cons in Hfold. destruct (f x) as [z| |] eqn:Hf; try discriminate.
    apply (IH _ _ Hfold). simpl in Hk.
    destruct (string_dec k (key x)) as [->|Hne].
    + left. unfold has_key. now rewrite lookup_obj_set_same.
    + destruct Hk as [Hk|[Hk|Hk]]; try congruence; auto.
      left. unfold has_key in *. now rewrite lookup_obj_set_other.
Qed.

(** The fold returns as soon as every element converts. *)
Lemma obj_fold_returns l : forall acc,
  (forall x, In x l -> exists z, f x = Ret z) ->
  exists shape, fold_left (obj_step key f) l (Ret acc) = Ret shape.
Proof.
  induction l as [|x l IH]; intros acc Hall.
  - simpl. eauto.
  - rewrite obj_fold_cons. destruct (Hall x) as [z Hz]; [now left|].
    rewrite Hz. apply IH. intros y Hy. apply Hall. now right.
Qed.

(** The fold only throws what a conversion threw. *)
Lemma obj_fold_throws l : forall acc e,
  fold_left (obj_step key f) l (Ret acc) = Throw e ->
  exists x, In x l /\ f x = Throw e.
Proof.
  induction l as [|x l IH]; intros acc e Hfold.
  - discriminate.
  - rewrite obj_fold_cons in Hfold. destruct (f x) as [z| |] eqn:Hf; try discriminate.
    + destruct (IH _ _ Hfold) as [y [Hy Hfy]]. exists y. simpl. auto.
    + inversion Hfold. subst. exists x. simpl. auto.
Qed.

End ObjFold.

Lemma fold_left_ext {A B} (f g : A -> B -> A) l :
  (forall a b, f a b = g a b) -> forall a, fold_left f l a = fold_left g l a.
Proof.
  intros H. induction l as [|b l IH]; intros a; simpl; auto.
  rewrite H. apply IH.
Qed.

(** ** The schema compiler *)

Lemma get_defined_truthy v k :
  get v k <> VUndef -> truthy v = true.
Proof. destruct v; simpl; auto; intros H; now elim H. Qed.

Lemma truthy_str s : truthy (VStr s) = true <-> s <> "".
Proof.
  simpl. rewrite negb_true_iff. split.
  - intros H ->. discriminate.
  - intros H. apply String.eqb_neq. exact H.
Qed.

Lemma is_optional_wrap opt z : is_optional z = false -> is_optional (wrap opt z) = opt.
Proof. destruct opt; simpl; auto. Qed.

(** What a reference node resolves to. *)
Lemma resolve_reference doc prop ref :
  get prop "$ref" = VStr ref -> ref <> "" ->
  resolve_if_ref doc prop =
  Ret (or_null (schema_at doc (replace ref "#/components/schemas/" ""))).
Proof.
  intros Href Hne.
  assert (Ht : truthy prop = true) by (apply (get_defined_truthy prop "$ref"); congruence).
  unfold resolve_if_ref, resolveSchemaRef.
  rewrite Href, Ht. apply truthy_str in Hne. now rewrite Hne.
Qed.

Lemma resolve_direct doc node :
  truthy (get node "$ref") = false -> resolve_if_ref doc node = Ret node.
Proof. unfold resolve_if_ref. now intros ->. Qed.

(** One unfolding of the compiler on a truthy node. *)
Lemma convert_unfold doc fuel prop opt :
  truthy prop = true ->
  convertSchemaPropertyToZod doc (S fuel) prop opt =
  (resolvedProp <- resolve_if_ref doc prop ;;
   if negb (truthy resolvedProp) then Ret (wrap opt ZAny)
   else
     zodSchema <-
       (let type := get resolvedProp "type" in
        if is_str "string" type then Ret ZString
        else if is_str "number" type || is_str "integer" type then Ret ZNumber
        else if is_str "boolean" type then Ret ZBoolean
        else if is_str "array" type then
          if truthy (get resolvedProp "items") then
            itemSchema <- resolve_if_ref doc (get resolvedProp "items") ;;
            if truthy itemSchema then
              itemZodSchema <- convertSchemaPropertyToZod doc fuel itemSchema false ;;
              Ret (ZArray itemZodSchema)
            else Ret (ZArray ZAny)
          else Ret (ZArray ZAny)
        else if is_str "object" type then
          if truthy (get resolvedProp "properties") then
            nestedSchema <-
              fold_left
                (obj_step fst
                   (property_validator doc fuel (get resolvedProp "required")))
                (entries (get resolvedProp "properties")) (Ret []) ;;
            Ret (ZObject nestedSchema)
          else Ret (ZObject [])
        else Ret ZAny) ;;
     Ret (wrap opt zodSchema)).
Proof.
  intros Ht. cbn [convertSchemaPropertyToZod]. rewrite Ht. cbn [negb].
  destruct (resolve_if_ref doc prop) as [r| |]; cbn [bind]; auto.
  destruct (truthy r); cbn [negb]; auto.
  repeat match goal with |- context [if ?c then _ else _] =>
    lazymatch c with
    | is_str _ _ => destruct c
    | orb _ _ => destruct c
    end end; auto.
  destruct (truthy (get r "properties")); auto.
  erewrite fold_left_ext; [reflexivity|]. intros a [k v].
  unfold obj_step, property_validator. cbn [fst snd].
  destruct a; cbn [bind]; auto.
  destruct (required_includes (get r "required") k); cbn [bind]; auto.
Qed.

(** A validator compiled with the flag down carries no optional marker, and
    one compiled with the flag up carries it. *)
Lemma convert_is_optional doc fuel prop opt z :
  convertSchemaPropertyToZod doc fuel prop opt = Ret z -> is_optional z = opt.
Proof.
  destruct fuel as [|fuel]; [discriminate|].
  destruct (truthy prop) eqn:Ht.
  - rewrite convert_unfold by exact Ht.
    destruct (resolve_if_ref doc prop) as [r| |]; cbn [bind]; try discriminate.
    destruct (truthy r); cbn [negb].
    2: { intros H. inversion H. now apply is_optional_wrap. }
    match goal with |- bind ?m _ = _ -> _ => destruct m as [s| |] eqn:Hs end;
      cbn [bind]; try discriminate.
    intros H. inversion H. apply is_optional_wrap.
    cbv zeta in Hs.
    repeat match type of Hs with context [if ?c then _ else _] =>
      destruct c end;
    repeat match type of Hs with bind ?m _ = _ =>
      destruct m; cbn [bind] in Hs; try discriminate end;
    repeat match type of Hs with context [if ?c then _ else _] =>
      destruct c end;
    repeat match type of Hs with bind ?m _ = _ =>
      destruct m; cbn [bind] in Hs; try discriminate end;
    inversion Hs; reflexivity.
  - cbn [convertSchemaPropertyToZod]. rewrite Ht. cbn [negb].
    intros H. inversion H. now apply is_optional_wrap.
Qed.

(** *** References *)

(** C2, counterexample: a reference to an entry that is itself a reference.
    The compiler resolves one step and then reads [type] off the alias,
    which has none, so the reference compiles to accept-anything, while the
    alias compiled directly resolves its own reference and gives a string
    validator. *)
Lemma C2_alias_entry_counterexample : ~ reference_compiles_as_entry.
Proof.
  intros H.
  specialize (H alias_doc 2
                (VObj [("$ref", VStr "#/components/schemas/Alias")])
                "#/components/schemas/Alias"
                [("Alias", VObj [("$ref", VStr "#/components/schemas/Name")]);
                 ("Name", VObj [("type", VStr "string")])]
                (VObj [("$ref", VStr "#/components/schemas/Name")])
                true eq_refl).
  assert (Hne : "#/components/schemas/Alias" <> "") by discriminate.
  specialize (H Hne eq_refl eq_refl).
  vm_compute in H. discriminate.
Qed.

(** C2 (amended): a reference whose name is in the schema table, and whose
    table entry is a direct node (carries no [$ref] of its own), compiles to
    the same outcome as the entry compiled directly with the same
    optionality flag, at every depth of recursion allowed. *)
Theorem C2_reference_compiles_as_direct_entry
    (doc : Document) (fuel : nat) (prop : value) (ref : string)
    (table : list (string * value)) (target : value) (opt : bool) :
  get prop "$ref" = VStr ref -> ref <> "" ->
  schemas doc = Some table ->
  lookup (replace ref "#/components/schemas/" "") table = Some target ->
  truthy (get target "$ref") = false ->
  convertSchemaPropertyToZod doc fuel prop opt =
  convertSchemaPropertyToZod doc fuel target opt.
Proof.
  intros Href Hne Htable Hlookup Hdirect.
  destruct fuel as [|fuel]; [reflexivity|].
  assert (Ht : truthy prop = true)
    by (apply (get_defined_truthy prop "$ref"); congruence).
  rewrite (convert_unfold doc fuel prop opt Ht).
  rewrite (resolve_reference doc prop Href Hne).
  unfold schema_at. rewrite Htable, Hlookup. unfold or_null.
  destruct (truthy target) eqn:Htarget.
  - rewrite (convert_unfold doc fuel target opt Htarget).
    rewrite (resolve_direct doc target Hdirect). reflexivity.
  - cbn [bind truthy negb convertSchemaPropertyToZod]. now rewrite Htarget.
Qed.

Lemma C2_reference_compiles_as_direct_entry_witness :
  convertSchemaPropertyToZod alias_doc 2
    (VObj [("$ref", VStr "#/components/schemas/Name")]) false =
  convertSchemaPropertyToZod alias_doc 2 (VObj [("type", VStr "string")]) false
  /\ convertSchemaPropertyToZod alias_doc 2 (VObj [("type", VStr "string")]) false
     = Ret ZString.
Proof.
  split.
  - apply (@C2_reference_compiles_as_direct_entry alias_doc 2
             (VObj [("$ref", VStr "#/components/schemas/Name")])
             "#/components/schemas/Name"
             [("Alias", VObj [("$ref", VStr "#/components/schemas/Name")]);
              ("Name", VObj [("type", VStr "string")])]
             (VObj [("type", VStr "string")]) false).
    + reflexivity.
    + discriminate.
    + reflexivity.
    + reflexivity.
    + reflexivity.
  - reflexivity.
Defined.

(** *** Objects *)

Lemma required_includes_list node required key :
  required_is node required ->
  required_includes (get node "required") key = Ret (existsb (is_str key) required).
Proof.
  intros [H|[H ->]]; rewrite H; reflexivity.
Qed.

Lemma convert_object doc fuel node opt :
  truthy (get node "$ref") = false ->
  get node "type" = VStr "object" ->
  truthy (get node "properties") = true ->
  convertSchemaPropertyToZod doc (S fuel) node opt =
  (nestedSchema <-
     fold_left
       (obj_step fst (property_validator doc fuel (get node "required")))
       (entries (get node "properties")) (Ret []) ;;
   Ret (wrap opt (ZObject nestedSchema))).
Proof.
  intros Hdirect Htype Hprops.
  assert (Ht : truthy node = true)
    by (apply (get_defined_truthy node "type"); congruence).
  rewrite (convert_unfold doc fuel node opt Ht).
  rewrite (resolve_direct doc node Hdirect). cbn [bind].
  rewrite Ht, Htype, Hprops. cbn.
  destruct (fold_left _ _ _); reflexivity.
Qed.

(** C3: in the validator of an object node with declared properties, the
    fields are the declared properties, and a field carries no optional
    marker exactly when its name is in the node's [required] list; the
    object compiles as soon as each property does. *)
Theorem C3_required_properties_not_optional
    (doc : Document) (fuel : nat) (node : value) (required : list value)
    (opt : bool) :
  truthy (get node "$ref") = false ->
  get node "type" = VStr "object" ->
  truthy (get node "properties") = true ->
  required_is node required ->
  (forall z,
      convertSchemaPropertyToZod doc (S fuel) node opt = Ret z ->
      exists shape,
        z = wrap opt (ZObject shape)
        /\ (forall k, In k (keys (get node "properties")) <-> has_key k shape = true)
        /\ (forall k zk, lookup k shape = Some zk ->
              (In (VStr k) required -> is_optional zk = false)
              /\ (~ In (VStr k) required -> is_optional zk = true)))
  /\ ((forall kv, In kv (entries (get node "properties")) ->
         exists zk,
           convertSchemaPropertyToZod doc fuel (snd kv)
             (negb (existsb (is_str (fst kv)) required)) = Ret zk) ->
      exists z, convertSchemaPropertyToZod doc (S fuel) node opt = Ret z).
Proof.
  intros Hdirect Htype Hprops Hreq.
  rewrite (convert_object doc fuel node opt Hdirect Htype Hprops).
  split.
  - intros z Hz.
    destruct (fold_left _ _ _) as [shape| |] eqn:Hfold; try discriminate.
    cbn [bind] in Hz. inversion Hz. subst z. clear Hz.
    exists shape. split; [reflexivity|]. split.
    + intros k. split.
      * intros Hk. eapply obj_fold_keys; [exact Hfold|]. now right.
      * unfold has_key. destruct (lookup k shape) as [zk|] eqn:Hk; [|discriminate].
        intros _.
        destruct (obj_fold_lookup _ _ _ _ _ Hfold Hk) as [H|[x [Hx [Hkx _]]]];
          [discriminate|].
        subst k. unfold keys. now apply in_map.
    + intros k zk Hk.
      destruct (obj_fold_lookup _ _ _ _ _ Hfold Hk) as [H|[x [Hx [Hkx Hfx]]]];
        [discriminate|].
      unfold property_validator in Hfx.
      rewrite (required_includes_list (fst x) Hreq) in Hfx. cbn [bind] in Hfx.
      apply convert_is_optional in Hfx. rewrite Hkx in Hfx.
      split; intros Hin.
      * apply existsb_is_str in Hin. rewrite Hin in Hfx. exact Hfx.
      * destruct (existsb (is_str k) required) eqn:E; [|exact Hfx].
        apply existsb_is_str in E. contradiction.
  - intros Hall.
    destruct (obj_fold_returns fst
                (property_validator doc fuel (get node "required"))
                (entries (get node "properties")) []) as [shape Hshape].
    + intros x Hx. unfold property_validator.
      rewrite (required_includes_list (fst x) Hreq). cbn [bind]. now apply Hall.
    + rewrite Hshape. cbn [bind]. eauto.
Qed.

Lemma C3_required_properties_not_optional_witness :
  convertSchemaPropertyToZod alias_doc 2 item_node false
  = Ret (ZObject [("id", ZString); ("note", ZOptional ZString)])
  /\ exists shape,
       ZObject [("id", ZString); ("note", ZOptional ZString)]
       = wrap false (ZObject shape)
       /\ (forall k, In k (keys (get item_node "properties")) <-> has_key k shape = true)
       /\ (forall k zk, lookup k shape = Some zk ->
             (In (VStr k) [VStr "id"] -> is_optional zk = false)
             /\ (~ In (VStr k) [VStr "id"] -> is_optional zk = true)).
Proof.
  split; [reflexivity|].
  apply (@C3_required_properties_not_optional alias_doc 1 item_node [VStr "id"] false).
  - reflexivity.
  - reflexivity.
  - reflexivity.
  - left. reflexivity.
  - reflexivity.
Defined.

(** *** Arrays *)

Lemma convert_array doc fuel node opt :
  truthy (get node "$ref") = false ->
  get node "type" = VStr "array" ->
  convertSchemaPropertyToZod doc (S fuel) node opt =
  (if truthy (get node "items") then
     itemSchema <- resolve_if_ref doc (get node "items") ;;
     if truthy itemSchema then
       itemZodSchema <- convertSchemaPropertyToZod doc fuel itemSchema false ;;
       Ret (wrap opt (ZArray itemZodSchema))
     else Ret (wrap opt (ZArray ZAny))
   else Ret (wrap opt (ZArray ZAny))).
Proof.
  intros Hdirect Htype.
  assert (Ht : truthy node = true)
    by (apply (get_defined_truthy node "type"); congruence).
  rewrite (convert_unfold doc fuel node opt Ht).
  rewrite (resolve_direct doc node Hdirect). cbn [bind].
  rewrite Ht, Htype. cbn.
  destruct (truthy (get node "items")); [|reflexivity].
  destruct (resolve_if_ref doc (get node "items")) as [i| |]; cbn [bind]; auto.
  destruct (truthy i); [|reflexivity].
  destruct (convertSchemaPropertyToZod doc fuel i false); reflexivity.
Qed.

(** C4: whatever the flag the array node is compiled with, its validator
    is an array validator whose item validator carries no optional marker;
    it is accept-anything when [items] is absent or is a reference that
    does not resolve, and the compiled [items] schema otherwise. *)
Theorem C4_array_items_never_optional
    (doc : Document) (fuel : nat) (node : value) (opt : bool) :
  truthy (get node "$ref") = false ->
  get node "type" = VStr "array" ->
  (forall z,
      convertSchemaPropertyToZod doc (S fuel) node opt = Ret z ->
      exists item, z = wrap opt (ZArray item) /\ is_optional item = false)
  /\ (truthy (get node "items") = false ->
      convertSchemaPropertyToZod doc (S fuel) node opt = Ret (wrap opt (ZArray ZAny)))
  /\ (forall ref,
        get (get node "items") "$ref" = VStr ref -> ref <> "" ->
        truthy (schema_at doc (replace ref "#/components/schemas/" "")) = false ->
        convertSchemaPropertyToZod doc (S fuel) node opt = Ret (wrap opt (ZArray ZAny)))
  /\ (forall itemSchema item,
        truthy (get node "items") = true ->
        resolve_if_ref doc (get node "items") = Ret itemSchema ->
        truthy itemSchema = true ->
        convertSchemaPropertyToZod doc fuel itemSchema false = Ret item ->
        convertSchemaPropertyToZod doc (S fuel) node opt = Ret (wrap opt (ZArray item))).
Proof.
  intros Hdirect Htype.
  rewrite (convert_array doc fuel node opt Hdirect Htype).
  repeat split.
  - intros z Hz.
    destruct (truthy (get node "items")).
    2: { inversion Hz. exists ZAny. auto. }
    destruct (resolve_if_ref doc (get node "items")) as [i| |];
      cbn [bind] in Hz; try discriminate.
    destruct (truthy i).
    2: { inversion Hz. exists ZAny. auto. }
    destruct (convertSchemaPropertyToZod doc fuel i false) as [zi| |] eqn:Hi;
      cbn [bind] in Hz; try discriminate.
    inversion Hz. exists zi. split; [reflexivity|].
    exact (convert_is_optional doc fuel i false Hi).
  - now intros ->.
  - intros ref Href Hne Hunres.
    assert (Hitems : truthy (get node "items") = true)
      by (apply (get_defined_truthy (get node "items") "$ref"); congruence).
    rewrite Hitems, (resolve_reference doc (get node "items") Href Hne).
    cbn [bind]. unfold or_null. now rewrite Hunres.
  - intros itemSchema item Hitems Hres Ht Hitem.
    rewrite Hitems, Hres. cbn [bind]. rewrite Ht, Hitem. reflexivity.
Qed.

Lemma C4_array_items_never_optional_witness :
  (exists item,
      ZOptional (ZArray ZString) = wrap true (ZArray item)
      /\ is_optional item = false)
  /\ convertSchemaPropertyToZod alias_doc 2 names_node true
     = Ret (ZOptional (ZArray ZString))
  /\ convertSchemaPropertyToZod alias_doc 2 dangling_node true
     = Ret (ZOptional (ZArray ZAny)).
Proof.
  split; [|split].
  - assert (Hd : truthy (get names_node "$ref") = false) by reflexivity.
    assert (Ht : get names_node "type" = VStr "array") by reflexivity.
    destruct (@C4_array_items_never_optional alias_doc 1 names_node true Hd Ht)
      as [Hitem _].
    apply Hitem. reflexivity.
  - reflexivity.
  - assert (Hd : truthy (get dangling_node "$ref") = false) by reflexivity.
    assert (Ht : get dangling_node "type" = VStr "array") by reflexivity.
    destruct (@C4_array_items_never_optional alias_doc 1 dangling_node true Hd Ht)
      as [_ [_ [Hdangling _]]].
    apply (Hdangling "#/components/schemas/Missing").
    + reflexivity.
    + discriminate.
    + reflexivity.
Defined.

Lemma resolveSchemaRef_throws doc schema e :
  resolveSchemaRef doc schema = Throw e -> e = TypeError.
Proof.
  unfold resolveSchemaRef.
  destruct (negb (truthy schema)); [discriminate|].
  destruct (truthy (get schema "$ref")); [|discriminate].
  destruct (get schema "$ref"); intros H; inversion H; reflexivity.
Qed.

Lemma resolve_if_ref_throws doc x e :
  resolve_if_ref doc x = Throw e -> e = TypeError.
Proof.
  unfold resolve_if_ref. destruct (truthy (get x "$ref")); [|discriminate].
  apply resolveSchemaRef_throws.
Qed.

(** The compiler throws nothing but the [TypeError] of a call on something
    that is no function. *)
Lemma convert_throws doc fuel : forall prop opt e,
  convertSchemaPropertyToZod doc fuel prop opt = Throw e -> e = TypeError.
Proof.
  induction fuel as [|fuel IH]; intros prop opt e; [discriminate|].
  destruct (truthy prop) eqn:Ht.
  2: { cbn [convertSchemaPropertyToZod]. rewrite Ht. discriminate. }
  rewrite (convert_unfold doc fuel prop opt Ht).
  destruct (resolve_if_ref doc prop) as [r| |] eqn:Hr; cbn [bind]; try discriminate.
  2: { intros H. inversion H. subst. eapply resolve_if_ref_throws; eauto. }
  destruct (truthy r); cbn [negb]; [|discriminate].
  cbv zeta.
  destruct (is_str "string" (get r "type")); [discriminate|].
  destruct (is_str "number" (get r "type") || is_str "integer" (get r "type"));
    [discriminate|].
  destruct (is_str "boolean" (get r "type")); [discriminate|].
  destruct (is_str "array" (get r "type")).
  { destruct (truthy (get r "items")); [|discriminate].
    destruct (resolve_if_ref doc (get r "items")) as [i| |] eqn:Hi;
      cbn [bind]; try discriminate.
    2: { intros H. inversion H. subst. eapply resolve_if_ref_throws; eauto. }
    destruct (truthy i); [|discriminate].
    destruct (convertSchemaPropertyToZod doc fuel i false) eqn:Hc;
      cbn [bind]; try discriminate.
    intros H. inversion H. subst. eapply IH; eauto. }
  destruct (is_str "object" (get r "type")); [|discriminate].
  destruct (truthy (get r "properties")); [|discriminate].
  destruct (fold_left _ _ _) as [s| |] eqn:Hfold; cbn [bind]; try discriminate.
  intros H. inversion H. subst.
  destruct (obj_fold_throws _ _ _ _ Hfold) as [x [_ Hx]].
  unfold property_validator in Hx.
  destruct (required_includes (get r "required") (fst x)) as [b| |] eqn:Hb;
    cbn [bind] in Hx; try discriminate.
  - eapply IH; eauto.
  - inversion Hx. subst. unfold required_includes in Hb.
    destruct (get r "required"); inversion Hb; reflexivity.
Qed.

(** *** Fuel *)

Lemma obj_fold_mono {X B} (key : X -> string) (f g : X -> outcome B) l :
  (forall x r, In x l -> f x = r -> r <> NoFuel -> g x = r) ->
  forall acc r,
    fold_left (obj_step key f) l (Ret acc) = r -> r <> NoFuel ->
    fold_left (obj_step key g) l (Ret acc) = r.
Proof.
  induction l as [|x l IH]; intros Hfg acc r Hfold Hr; [exact Hfold|].
  rewrite obj_fold_cons in *.
  destruct (f x) as [z|e|] eqn:Hf.
  - rewrite (Hfg x (Ret z)); auto; [|now left|discriminate].
    apply IH; auto. intros y r' Hy. apply Hfg. now right.
  - rewrite (Hfg x (Throw e)); auto; [now left|discriminate].
  - congruence.
Qed.

(** Once the compiler has answered, more fuel gives the same answer. *)
Lemma convert_fuel_S doc fuel : forall prop opt r,
  convertSchemaPropertyToZod doc fuel prop opt = r -> r <> NoFuel ->
  convertSchemaPropertyToZod doc (S fuel) prop opt = r.
Proof.
  induction fuel as [|fuel IH]; intros prop opt r Hr Hne; [simpl in Hr; congruence|].
  destruct (truthy prop) eqn:Ht.
  2: { cbn [convertSchemaPropertyToZod] in *. rewrite Ht in *. exact Hr. }
  rewrite (convert_unfold doc (S fuel) prop opt Ht).
  rewrite (convert_unfold doc fuel prop opt Ht) in Hr.
  destruct (resolve_if_ref doc prop) as [n| |]; cbn [bind] in *; auto.
  destruct (truthy n); cbn [negb] in *; auto.
  cbv zeta in *.
  destruct (is_str "string" (get n "type")); auto.
  destruct (is_str "number" (get n "type") || is_str "integer" (get n "type")); auto.
  destruct (is_str "boolean" (get n "type")); auto.
  destruct (is_str "array" (get n "type")).
  { destruct (truthy (get n "items")); auto.
    destruct (resolve_if_ref doc (get n "items")) as [i| |]; cbn [bind] in *; auto.
    destruct (truthy i); auto.
    destruct (convertSchemaPropertyToZod doc fuel i false) as [z|e|] eqn:Hi.
    - rewrite (IH i false (Ret z)); auto. discriminate.
    - rewrite (IH i false (Throw e)); auto. discriminate.
    - cbn [bind] in Hr. congruence. }
  destruct (is_str "object" (get n "type")); auto.
  destruct (truthy (get n "properties")); auto.
  destruct (fold_left (obj_step fst (property_validator doc fuel (get n "required"))) _ _)
    as [s|e|] eqn:Hfold.
  - rewrite (obj_fold_mono fst (property_validator doc fuel (get n "required"))
               (property_validator doc (S fuel) (get n "required")) _) with (r := Ret s);
      auto; [|discriminate].
    intros x r' _. unfold property_validator.
    destruct (required_includes (get n "required") (fst x)); cbn [bind]; auto.
  - rewrite (obj_fold_mono fst (property_validator doc fuel (get n "required"))
               (property_validator doc (S fuel) (get n "required")) _) with (r := Throw e);
      auto; [|discriminate].
    intros x r' _. unfold property_validator.
    destruct (required_includes (get n "required") (fst x)); cbn [bind]; auto.
  - cbn [bind] in Hr. congruence.
Qed.

Lemma convert_fuel_le doc fuel fuel' prop opt r :
  fuel <= fuel' ->
  convertSchemaPropertyToZod doc fuel prop opt = r -> r <> NoFuel ->
  convertSchemaPropertyToZod doc fuel' prop opt = r.
Proof.
  induction 1; auto. intros. apply convert_fuel_S; auto.
Qed.

Lemma ref_free_direct v : ref_free v = true -> truthy (get v "$ref") = false.
Proof.
  destruct v; simpl; auto. intros H. apply andb_true_iff in H. destruct H as [H _].
  now apply negb_true_iff in H.
Qed.

Lemma field_inside fields : forall k x,
  In (k, x) fields ->
  ref_free (VObj fields) = true ->
  ref_free x = true /\ depth x < depth (VObj fields).
Proof.
  intros k x Hin Hfree. simpl in Hfree. apply andb_true_iff in Hfree.
  destruct Hfree as [_ Hall]. simpl.
  induction fields as [|[k' x'] fields IH]; [contradiction|].
  apply andb_true_iff in Hall. destruct Hall as [Hx Hall].
  destruct Hin as [Heq|Hin].
  - inversion Heq. subst. split; auto. lia.
  - destruct (IH Hin Hall). split; auto. lia.
Qed.

Lemma elem_inside elems : forall x,
  In x elems ->
  ref_free (VArr elems) = true ->
  ref_free x = true /\ depth x < depth (VArr elems).
Proof.
  intros x Hin Hall. simpl in *.
  induction elems as [|x' elems IH]; [contradiction|].
  apply andb_true_iff in Hall. destruct Hall as [Hx Hall].
  destruct Hin as [Heq|Hin].
  - subst. split; auto. lia.
  - destruct (IH Hin Hall). split; auto. lia.
Qed.

Lemma get_inside v k :
  ref_free v = true ->
  ref_free (get v k) = true /\ (get v k <> VUndef -> depth (get v k) < depth v).
Proof.
  intros Hfree. destruct v; simpl; try (split; [reflexivity | intros H; now elim H]).
  destruct (lookup k fields) as [x|] eqn:Hk.
  - apply lookup_In in Hk. destruct (field_inside _ _ _ Hk Hfree). split; auto.
  - split; [reflexivity | intros H; now elim H].
Qed.

Lemma index_from_In {A} (l : list A) : forall i k x,
  In (k, x) (index_from i l) -> In x l.
Proof.
  induction l as [|a l IH]; intros i k x; simpl; [tauto|].
  intros [H|H]; [inversion H; auto | right; eauto].
Qed.

Lemma chars_In s x : In x (chars s) -> exists c, x = VStr (String c EmptyString).
Proof.
  induction s as [|c s IH]; simpl; [tauto|].
  intros [H|H]; eauto.
Qed.

Lemma entry_inside v k x :
  ref_free v = true -> In (k, x) (entries v) ->
  ref_free x = true /\ depth x <= depth v.
Proof.
  intros Hfree Hin. destruct v; simpl in Hin; try contradiction.
  - apply index_from_In in Hin. apply chars_In in Hin. destruct Hin as [c ->].
    simpl. split; auto.
  - apply index_from_In in Hin. destruct (elem_inside _ _ Hin Hfree). split; auto. lia.
  - destruct (field_inside _ _ _ Hin Hfree). split; auto. lia.
Qed.

Lemma obj_fold_nofuel_inv {X B} (key : X -> string) (f : X -> outcome B) l :
  forall acc,
    fold_left (obj_step key f) l (Ret acc) = NoFuel ->
    exists x, In x l /\ f x = NoFuel.
Proof.
  induction l as [|x l IH]; intros acc Hfold; [discriminate|].
  rewrite obj_fold_cons in Hfold. destruct (f x) as [z| |] eqn:Hf; try discriminate.
  - destruct (IH _ Hfold) as [y [Hy Hfy]]. exists y. simpl. auto.
  - exists x. simpl. auto.
Qed.

(** A schema without references compiles, or throws, within as many
    nested calls as it is deep. *)
Theorem convert_reference_free_terminates doc fuel : forall prop opt,
  ref_free prop = true -> depth prop < fuel ->
  convertSchemaPropertyToZod doc fuel prop opt <> NoFuel.
Proof.
  induction fuel as [|fuel IH]; intros prop opt Hfree Hdepth; [lia|].
  destruct (truthy prop) eqn:Ht.
  2: { cbn [convertSchemaPropertyToZod]. rewrite Ht. discriminate. }
  rewrite (convert_unfold doc fuel prop opt Ht).
  rewrite (resolve_direct doc prop (ref_free_direct prop Hfree)). cbn [bind].
  rewrite Ht. cbn [negb]. cbv zeta.
  destruct (is_str "string" (get prop "type")); [discriminate|].
  destruct (is_str "number" (get prop "type") || is_str "integer" (get prop "type"));
    [discriminate|].
  destruct (is_str "boolean" (get prop "type")); [discriminate|].
  destruct (is_str "array" (get prop "type")).
  { destruct (truthy (get prop "items")) eqn:Hitems; [|discriminate].
    destruct (get_inside prop "items" Hfree) as [Hif Hid].
    rewrite (resolve_direct doc _ (ref_free_direct _ Hif)). cbn [bind].
    rewrite Hitems.
    assert (Hlt : depth (get prop "items") < fuel).
    { assert (get prop "items" <> VUndef) by (intros E; rewrite E in Hitems; discriminate).
      specialize (Hid H). lia. }
    specialize (IH (get prop "items") false Hif Hlt).
    destruct (convertSchemaPropertyToZod doc fuel (get prop "items") false);
      cbn [bind]; try discriminate. congruence. }
  destruct (is_str "object" (get prop "type")); [|discriminate].
  destruct (truthy (get prop "properties")) eqn:Hprops; [|discriminate].
  destruct (fold_left _ _ _) as [s|e|] eqn:Hfold; cbn [bind]; try discriminate.
  exfalso.
  destruct (obj_fold_nofuel_inv _ _ _ _ Hfold) as [[k x] [Hx Hfx]].
  unfold property_validator in Hfx. cbn [fst snd] in Hfx.
  destruct (required_includes (get prop "required") k) as [b| |] eqn:Hb;
    cbn [bind] in Hfx; try discriminate.
  - destruct (get_inside prop "properties" Hfree) as [Hpf Hpd].
    assert (get prop "properties" <> VUndef) by (intros E; rewrite E in Hprops; discriminate).
    specialize (Hpd H).
    destruct (entry_inside _ _ _ Hpf Hx) as [Hxf Hxd].
    apply (IH x (negb b)); auto. lia.
  - unfold required_includes in Hb. destruct (get prop "required"); discriminate.
Qed.

(** ** Tool compilation *)

Lemma admin_select_by doc refFunction :
  Admin.select doc refFunction = select_by doc precedence refFunction.
Proof.
  unfold Admin.select, select_by, precedence, selection_of. cbn.
  destruct (get_ refFunction); [reflexivity|].
  destruct (post_ refFunction); [reflexivity|].
  destruct (delete_ refFunction); reflexivity.
Qed.

Lemma store_select_by doc refFunction :
  Store.select doc refFunction = select_by doc store_order refFunction.
Proof.
  unfold Store.select, select_by, store_order, selection_of. cbn.
  destruct (get_ refFunction); [reflexivity|].
  destruct (post_ refFunction); reflexivity.
Qed.

Lemma select_by_name doc order refFunction sel :
  select_by doc order refFunction = Ret sel ->
  sel_name sel = selected_name order refFunction.
Proof.
  unfold select_by, selected_name, selection_of.
  destruct (first_present order refFunction) as [[m op]|].
  - destruct (match m with POST => _ | _ => _ end); cbn [bind]; try discriminate.
    intros H. inversion H. reflexivity.
  - intros H. inversion H. reflexivity.
Qed.

Lemma select_by_selected doc order refFunction sel m op :
  select_by doc order refFunction = Ret sel ->
  first_present order refFunction = Some (m, op) ->
  sel_method sel = method_name m
  /\ sel_name sel = operationId op
  /\ sel_description sel = op_description op.
Proof.
  unfold select_by, selection_of. intros Hsel Hfirst. rewrite Hfirst in Hsel.
  destruct (match m with POST => _ | _ => _ end); cbn [bind] in Hsel;
    try discriminate.
  inversion Hsel. auto.
Qed.

Lemma select_by_throws doc order refFunction e :
  select_by doc order refFunction = Throw e -> e = TypeError.
Proof.
  unfold select_by, selection_of.
  destruct (first_present order refFunction) as [[m op]|]; [|discriminate].
  destruct m; cbn [bind]; try discriminate.
  unfold post_body_schema.
  destruct (truthy _); cbn [bind]; try discriminate.
  destruct (resolveSchemaRef doc _) eqn:Hr; cbn [bind]; try discriminate.
  intros H. inversion H. subst. eapply resolveSchemaRef_throws; eauto.
Qed.

Lemma select_by_fuel doc order refFunction :
  select_by doc order refFunction <> NoFuel.
Proof.
  unfold select_by, selection_of.
  destruct (first_present order refFunction) as [[m op]|]; [|discriminate].
  destruct m; cbn [bind]; try discriminate.
  unfold post_body_schema, resolveSchemaRef.
  destruct (truthy _); cbn [bind]; try discriminate.
  destruct (negb _); cbn [bind]; try discriminate.
  destruct (truthy _); cbn [bind]; try discriminate.
  destruct (get _ "$ref"); cbn [bind]; discriminate.
Qed.

Lemma build_tool_ret doc fuel refPath sel tool_name tool_description t :
  build_tool doc fuel refPath sel tool_name tool_description = Ret t ->
  name t = tool_name /\ description t = tool_description.
Proof.
  unfold build_tool.
  destruct (parameterSchema_of doc fuel (sel_parameters sel)); cbn [bind];
    try discriminate.
  destruct (bodySchema_of doc fuel (sel_requestBodySchema sel)); cbn [bind];
    try discriminate.
  intros H. inversion H. auto.
Qed.

Lemma build_tool_throws doc fuel refPath sel tool_name tool_description e :
  build_tool doc fuel refPath sel tool_name tool_description = Throw e ->
  e = TypeError.
Proof.
  unfold build_tool.
  destruct (parameterSchema_of doc fuel (sel_parameters sel)) eqn:Hp;
    cbn [bind]; try discriminate.
  - destruct (bodySchema_of doc fuel (sel_requestBodySchema sel)) eqn:Hb;
      cbn [bind]; try discriminate.
    intros H. inversion H. subst. unfold bodySchema_of in Hb.
    destruct (truthy _); [|discriminate].
    destruct (obj_fold_throws fst
                (fun kv => convertSchemaPropertyToZod doc fuel (snd kv) true)
                _ _ Hb) as [x [_ Hx]].
    eapply convert_throws; eauto.
  - intros H. inversion H. subst. unfold parameterSchema_of in Hp.
    destruct (sel_parameters sel); [|now inversion Hp].
    destruct (obj_fold_throws p_name
                (fun p => convertSchemaPropertyToZod doc fuel (p_schema p) true)
                _ _ Hp) as [x [_ Hx]].
    eapply convert_throws; eauto.
Qed.

Lemma admin_wrapPath_by doc fuel refPath refFunction :
  Admin.wrapPath doc fuel refPath refFunction =
  (sel <- select_by doc precedence refFunction ;;
   if no_name (sel_name sel) then
     Throw (Error ("No name found for path: " ++ refPath))
   else
     build_tool doc fuel refPath sel
       ("Admin" ++ interpolate (sel_name sel))
       (Some ("This tool helps store administors. "
              ++ interpolate (sel_description sel)))).
Proof.
  unfold Admin.wrapPath, defineTool. now rewrite admin_select_by.
Qed.

Lemma store_wrapPath_by doc fuel refPath refFunction :
  Store.wrapPath doc fuel refPath refFunction =
  (sel <- select_by doc store_order refFunction ;;
   if no_name (sel_name sel) then
     Throw (Error "No name found for the function")
   else
     build_tool doc fuel refPath sel
       (interpolate (sel_name sel)) (sel_description sel)).
Proof.
  unfold Store.wrapPath, defineTool. rewrite store_select_by.
  destruct (select_by doc store_order refFunction) as [sel| |]; cbn [bind]; auto.
  destruct (sel_name sel); reflexivity.
Qed.

(** A compiled tool comes from the operation the policy picks, which has a
    non-empty identifier. *)
Lemma wrapPath_ret_selected doc order refFunction sel :
  select_by doc order refFunction = Ret sel ->
  no_name (sel_name sel) = false ->
  exists m op id,
    first_present order refFunction = Some (m, op)
    /\ operationId op = Some id /\ id <> ""
    /\ sel_name sel = Some id
    /\ sel_description sel = op_description op.
Proof.
  intros Hsel Hname.
  destruct (first_present order refFunction) as [[m op]|] eqn:Hfirst.
  - destruct (select_by_selected _ _ _ Hsel Hfirst) as [_ [Hn Hd]].
    rewrite Hn in Hname. destruct (operationId op) as [id|] eqn:Hid;
      [|discriminate].
    exists m, op, id. repeat split; auto.
    intros ->. discriminate.
  - unfold select_by in Hsel. rewrite Hfirst in Hsel. inversion Hsel. subst.
    discriminate.
Qed.

Lemma admin_wrapPath_ret doc fuel refPath refFunction t :
  Admin.wrapPath doc fuel refPath refFunction = Ret t ->
  exists m op id,
    first_present precedence refFunction = Some (m, op)
    /\ operationId op = Some id /\ id <> ""
    /\ name t = "Admin" ++ id
    /\ description t =
       Some ("This tool helps store administors. " ++ interpolate (op_description op)).
Proof.
  rewrite admin_wrapPath_by.
  destruct (select_by doc precedence refFunction) as [sel| |] eqn:Hsel;
    cbn [bind]; try discriminate.
  destruct (no_name (sel_name sel)) eqn:Hname; [discriminate|].
  intros Ht. apply build_tool_ret in Ht. destruct Ht as [Hn Hd].
  destruct (wrapPath_ret_selected _ _ _ Hsel Hname)
    as [m [op [id [Hfirst [Hid [Hne [Hsn Hsd]]]]]]].
  exists m, op, id. rewrite Hn, Hd, Hsn, Hsd. cbn [interpolate]. auto.
Qed.

Lemma store_wrapPath_ret doc fuel refPath refFunction t :
  Store.wrapPath doc fuel refPath refFunction = Ret t ->
  exists m op id,
    first_present store_order refFunction = Some (m, op)
    /\ operationId op = Some id /\ id <> ""
    /\ name t = id
    /\ description t = op_description op.
Proof.
  rewrite store_wrapPath_by.
  destruct (select_by doc store_order refFunction) as [sel| |] eqn:Hsel;
    cbn [bind]; try discriminate.
  destruct (no_name (sel_name sel)) eqn:Hname; [discriminate|].
  intros Ht. apply build_tool_ret in Ht. destruct Ht as [Hn Hd].
  destruct (wrapPath_ret_selected _ _ _ Hsel Hname)
    as [m [op [id [Hfirst [Hid [Hne [Hsn Hsd]]]]]]].
  exists m, op, id. rewrite Hn, Hd, Hsn, Hsd. cbn [interpolate]. auto.
Qed.

(** *** Method precedence *)

(** C1, counterexample: a store path item that defines [delete] alone.  The
    store service has no [delete] branch: it selects nothing, is left
    without a name and throws, whatever the document and the fuel. *)
Lemma C1_store_delete_only_counterexample :
  ~ store_selects_in_full_order
  /\ forall doc fuel,
       Store.wrapPath doc fuel "/things/{id}" delete_only
       = Throw (Error "No name found for the function").
Proof.
  split.
  - intros H.
    destruct (H alias_doc delete_only DELETE delete_thing no_selection
                eq_refl eq_refl) as [Hm _].
    discriminate.
  - reflexivity.
Qed.

(** What the store service looks at is the policy's pick, unless that is a
    [delete]. *)
Lemma first_present_store refFunction :
  first_present store_order refFunction =
  match first_present precedence refFunction with
  | Some (DELETE, _) => None
  | picked => picked
  end.
Proof.
  unfold store_order, precedence. cbn.
  destruct (get_ refFunction); [reflexivity|].
  destruct (post_ refFunction); [reflexivity|].
  destruct (delete_ refFunction); reflexivity.
Qed.

(** C1 (amended): on both surfaces a path item compiles through at most one
    of its operations, and a compiled Tool is the Tool of the first
    operation present in the order get, post, delete.  The other operations
    are ignored: two path items with the same first operation compile
    alike.  The Tool is named after that operation's identifier (the admin
    service writes [Admin] before it) and carries its declared description
    (after the admin preamble).  On the admin surface the operation read is
    always the first present in that order. *)
Theorem C1_first_present_operation_is_compiled
    (doc : Document) (fuel : nat) (refPath : string)
    (refFunction refFunction' : SdkRequestType) (t : Tool) :
  first_present precedence refFunction = first_present precedence refFunction' ->
  Admin.wrapPath doc fuel refPath refFunction
  = Admin.wrapPath doc fuel refPath refFunction'
  /\ Store.wrapPath doc fuel refPath refFunction
     = Store.wrapPath doc fuel refPath refFunction'
  /\ (Admin.wrapPath doc fuel refPath refFunction = Ret t ->
      exists m op id,
        first_present precedence refFunction = Some (m, op)
        /\ operationId op = Some id
        /\ name t = "Admin" ++ id
        /\ forall d, op_description op = Some d ->
                     description t = Some ("This tool helps store administors. " ++ d))
  /\ (Store.wrapPath doc fuel refPath refFunction = Ret t ->
      exists m op id,
        first_present precedence refFunction = Some (m, op)
        /\ operationId op = Some id
        /\ name t = id
        /\ forall d, op_description op = Some d -> description t = Some d)
  /\ Admin.select doc refFunction = select_by doc precedence refFunction.
Proof.
  intros Hsame. split; [|split; [|split; [|split]]].
  - rewrite !admin_wrapPath_by. unfold select_by. now rewrite Hsame.
  - rewrite !store_wrapPath_by. unfold select_by.
    now rewrite !first_present_store, Hsame.
  - intros H. destruct (admin_wrapPath_ret _ _ _ _ H)
      as [m [op [id [H1 [H2 [_ [H3 H4]]]]]]].
    exists m, op, id. repeat split; auto.
    intros d Hd. now rewrite H4, Hd.
  - intros H. destruct (store_wrapPath_ret _ _ _ _ H)
      as [m [op [id [H1 [H2 [_ [H3 H4]]]]]]].
    exists m, op, id. repeat split; auto.
    + rewrite first_present_store in H1.
      destruct (first_present precedence refFunction) as [[[] o]|];
        try discriminate; exact H1.
    + intros d Hd. now rewrite H4, Hd.
  - apply admin_select_by.
Qed.

Lemma C1_first_present_operation_is_compiled_witness :
  (exists t,
      Admin.wrapPath alias_doc 1 "/items" get_and_post = Ret t
      /\ name t = "AdminListItems"
      /\ description t = Some "This tool helps store administors. List the items.")
  /\ Admin.wrapPath alias_doc 1 "/items" get_and_post
     = Admin.wrapPath alias_doc 1 "/items" get_alone
  /\ Store.wrapPath alias_doc 1 "/items" get_and_post
     = Store.wrapPath alias_doc 1 "/items" get_alone.
Proof.
  assert (Hsame : first_present precedence get_and_post
                  = first_present precedence get_alone) by reflexivity.
  destruct (Admin.wrapPath alias_doc 1 "/items" get_and_post) as [t| |] eqn:Hw;
    try (vm_compute in Hw; discriminate).
  destruct (@C1_first_present_operation_is_compiled alias_doc 1 "/items"
              get_and_post get_alone t Hsame) as [Hadmin [Hstore [Htool _]]].
  split; [|split].
  - exists t. split; [reflexivity|].
    rewrite <- Hw in Htool.
    destruct (Htool eq_refl) as [m [op [id [Hfirst [Hid [Hname Hdesc]]]]]].
    vm_compute in Hfirst. inversion Hfirst. subst m op.
    vm_compute in Hid. inversion Hid. subst id.
    split; [exact Hname | exact (Hdesc "List the items." eq_refl)].
  - rewrite <- Hw. exact Hadmin.
  - exact Hstore.
Defined.

(** *** The name check *)

Lemma wrapPath_unnamed_throws doc order refFunction (k : Selection -> outcome Tool) msg :
  no_name (selected_name order refFunction) = true ->
  (exists e,
      (sel <- select_by doc order refFunction ;;
       if no_name (sel_name sel) then Throw (Error msg) else k sel) = Throw e)
  /\ (forall sel,
        select_by doc order refFunction = Ret sel ->
        (sel <- select_by doc order refFunction ;;
         if no_name (sel_name sel) then Throw (Error msg) else k sel)
        = Throw (Error msg)).
Proof.
  intros Hname.
  destruct (select_by doc order refFunction) as [sel|e|] eqn:Hsel; cbn [bind].
  - rewrite (select_by_name _ _ _ Hsel), Hname. split; eauto.
  - split; [eauto | discriminate].
  - now elim (select_by_fuel doc order refFunction).
Qed.

Lemma wrapPath_named_no_Error doc fuel order refFunction refPath msg msg'
    (tool_name : Selection -> string)
    (tool_description : Selection -> option string) :
  no_name (selected_name order refFunction) = false ->
  (sel <- select_by doc order refFunction ;;
   if no_name (sel_name sel) then Throw (Error msg)
   else build_tool doc fuel refPath sel (tool_name sel) (tool_description sel))
  <> Throw (Error msg').
Proof.
  intros Hname.
  destruct (select_by doc order refFunction) as [sel|e|] eqn:Hsel; cbn [bind].
  - rewrite (select_by_name _ _ _ Hsel), Hname.
    intros H. apply build_tool_throws in H. discriminate.
  - intros H. inversion H. subst. apply select_by_throws in Hsel. discriminate.
  - discriminate.
Qed.

(** C7: when the operation a service selects has no identifier -- none is
    declared, it is empty, or the path item defines none of the methods the
    service looks at -- [wrapPath] throws and gives no Tool, and once the
    operation has been read the error is the no-name error; when the
    identifier is present and non-empty, [wrapPath] never throws an [Error]
    at all, so never the no-name one. *)
Theorem C7_missing_identifier_raises
    (doc : Document) (fuel : nat) (refPath : string)
    (refFunction : SdkRequestType) :
  (no_name (selected_name precedence refFunction) = true ->
   (exists e, Admin.wrapPath doc fuel refPath refFunction = Throw e)
   /\ (forall sel, Admin.select doc refFunction = Ret sel ->
         Admin.wrapPath doc fuel refPath refFunction
         = Throw (Error ("No name found for path: " ++ refPath))))
  /\ (no_name (selected_name precedence refFunction) = false ->
      forall msg, Admin.wrapPath doc fuel refPath refFunction <> Throw (Error msg))
  /\ (no_name (selected_name store_order refFunction) = true ->
      (exists e, Store.wrapPath doc fuel refPath refFunction = Throw e)
      /\ (forall sel, Store.select doc refFunction = Ret sel ->
            Store.wrapPath doc fuel refPath refFunction
            = Throw (Error "No name found for the function")))
  /\ (no_name (selected_name store_order refFunction) = false ->
      forall msg, Store.wrapPath doc fuel refPath refFunction <> Throw (Error msg)).
Proof.
  split; [|split; [|split]].
  - intros Hname. rewrite admin_wrapPath_by.
    destruct (wrapPath_unnamed_throws doc precedence refFunction
                (fun sel => build_tool doc fuel refPath sel
                   ("Admin" ++ interpolate (sel_name sel))
                   (Some ("This tool helps store administors. "
                          ++ interpolate (sel_description sel))))
                ("No name found for path: " ++ refPath) Hname) as [H1 H2].
    split; [exact H1|]. intros sel Hsel. rewrite admin_select_by in Hsel.
    exact (H2 sel Hsel).
  - intros Hname msg. rewrite admin_wrapPath_by.
    apply wrapPath_named_no_Error
      with (tool_name := fun sel => "Admin" ++ interpolate (sel_name sel))
           (tool_description :=
              fun sel => Some ("This tool helps store administors. "
                               ++ interpolate (sel_description sel))).
    exact Hname.
  - intros Hname. rewrite store_wrapPath_by.
    destruct (wrapPath_unnamed_throws doc store_order refFunction
                (fun sel => build_tool doc fuel refPath sel
                   (interpolate (sel_name sel)) (sel_description sel))
                "No name found for the function" Hname) as [H1 H2].
    split; [exact H1|]. intros sel Hsel. rewrite store_select_by in Hsel.
    exact (H2 sel Hsel).
  - intros Hname msg. rewrite store_wrapPath_by.
    apply wrapPath_named_no_Error
      with (tool_name := fun sel => interpolate (sel_name sel))
           (tool_description := fun sel => sel_description sel).
    exact Hname.
Qed.

Lemma C7_missing_identifier_raises_witness :
  Admin.wrapPath alias_doc 1 "/items" unnamed_get
  = Throw (Error "No name found for path: /items")
  /\ Store.wrapPath alias_doc 1 "/items" no_method
     = Throw (Error "No name found for the function")
  /\ (forall msg, Admin.wrapPath alias_doc 1 "/items" get_and_post <> Throw (Error msg))
  /\ (forall msg, Store.wrapPath alias_doc 1 "/items" get_and_post <> Throw (Error msg)).
Proof.
  split; [|split; [|split]].
  - destruct (@C7_missing_identifier_raises alias_doc 1 "/items" unnamed_get)
      as [H _].
    destruct (H eq_refl) as [_ H']. apply (H' _ eq_refl).
  - destruct (@C7_missing_identifier_raises alias_doc 1 "/items" no_method)
      as [_ [_ [H _]]].
    destruct (H eq_refl) as [_ H']. apply (H' _ eq_refl).
  - destruct (@C7_missing_identifier_raises alias_doc 1 "/items" get_and_post)
      as [_ [H _]].
    apply H. reflexivity.
  - destruct (@C7_missing_identifier_raises alias_doc 1 "/items" get_and_post)
      as [_ [_ [_ H]]].
    apply H. reflexivity.
Defined.

(** *** Descriptions *)

(** C8, counterexample: an operation without a description.  The template
    literal prints the missing description as the text [undefined]. *)
Lemma C8_undefined_description_counterexample :
  ~ description_falls_back_to_empty
  /\ exists t,
       Admin.wrapPath alias_doc 1 "/ping" ping_item = Ret t
       /\ description t = Some "This tool helps store administors. undefined".
Proof.
  split.
  - intros H.
    destruct (Admin.wrapPath alias_doc 1 "/ping" ping_item) as [t| |] eqn:Hw;
      try (vm_compute in Hw; discriminate).
    specialize (H alias_doc 1 "/ping" ping_item t GET ping Hw eq_refl eq_refl).
    vm_compute in Hw. inversion Hw. subst t. discriminate.
  - eexists. split; reflexivity.
Qed.

(** C8 (amended): when the selected operation declares a description, the
    admin Tool's description is the fixed preamble followed by it, and the
    store Tool's description is the declared description as it is, with no
    preamble. *)
Theorem C8_declared_description
    (doc : Document) (fuel : nat) (refPath : string)
    (refFunction : SdkRequestType) (t : Tool) (m : method) (op : Operation)
    (d : string) :
  op_description op = Some d ->
  (first_present precedence refFunction = Some (m, op) ->
   Admin.wrapPath doc fuel refPath refFunction = Ret t ->
   description t = Some ("This tool helps store administors. " ++ d))
  /\ (first_present store_order refFunction = Some (m, op) ->
      Store.wrapPath doc fuel refPath refFunction = Ret t ->
      description t = Some d).
Proof.
  intros Hd. split; intros Hfirst Hw.
  - destruct (admin_wrapPath_ret _ _ _ _ Hw) as [m' [op' [id [H1 [_ [_ [_ H4]]]]]]].
    rewrite Hfirst in H1. inversion H1. subst m' op'.
    now rewrite H4, Hd.
  - destruct (store_wrapPath_ret _ _ _ _ Hw) as [m' [op' [id [H1 [_ [_ [_ H4]]]]]]].
    rewrite Hfirst in H1. inversion H1. subst m' op'.
    now rewrite H4, Hd.
Qed.

Lemma C8_declared_description_witness :
  exists ta ts,
    Admin.wrapPath alias_doc 1 "/items" get_and_post = Ret ta
    /\ description ta = Some "This tool helps store administors. List the items."
    /\ Store.wrapPath alias_doc 1 "/items" get_and_post = Ret ts
    /\ description ts = Some "List the items.".
Proof.
  destruct (Admin.wrapPath alias_doc 1 "/items" get_and_post) as [ta| |] eqn:Ha;
    try (vm_compute in Ha; discriminate).
  destruct (Store.wrapPath alias_doc 1 "/items" get_and_post) as [ts| |] eqn:Hs;
    try (vm_compute in Hs; discriminate).
  exists ta, ts.
  assert (Hd : op_description list_items = Some "List the items.") by reflexivity.
  destruct (@C8_declared_description alias_doc 1 "/items" get_and_post ta GET
              list_items "List the items." Hd) as [HA _].
  destruct (@C8_declared_description alias_doc 1 "/items" get_and_post ts GET
              list_items "List the items." Hd) as [_ HS].
  split; [reflexivity|]. split; [exact (HA eq_refl Ha)|].
  split; [reflexivity|]. exact (HS eq_refl Hs).
Defined.

(** ** Strings: the first occurrence *)

Lemma drop_prefix_app p rest : drop_prefix p (p ++ rest) = Some rest.
Proof.
  induction p as [|a p IH]; simpl; auto. now rewrite Ascii.eqb_refl.
Qed.

Lemma drop_prefix_some p : forall s rest,
  drop_prefix p s = Some rest -> s = p ++ rest.
Proof.
  induction p as [|a p IH]; intros s rest; simpl.
  - intros H. now inversion H.
  - destruct s as [|b s]; [discriminate|].
    destruct (Ascii.eqb a b) eqn:E; [|discriminate].
    apply Ascii.eqb_eq in E. subst b. intros H. now rewrite (IH _ _ H).
Qed.

(** [find_first] splits the text around an occurrence of the pattern, and
    no occurrence starts earlier. *)
Lemma find_first_some pat : forall s before after,
  find_first pat s = Some (before, after) ->
  s = before ++ pat ++ after
  /\ forall before' after',
       s = before' ++ pat ++ after' ->
       String.length before <= String.length before'.
Proof.
  induction s as [|c s IH]; intros before after; simpl.
  - destruct (drop_prefix pat "") as [rest|] eqn:E; [|discriminate].
    intros H. inversion H. subst. apply drop_prefix_some in E.
    split; [exact E | intros; simpl; lia].
  - destruct (drop_prefix pat (String c s)) as [rest|] eqn:E.
    + intros H. inversion H. subst. apply drop_prefix_some in E.
      split; [exact E | intros; simpl; lia].
    + destruct (find_first pat s) as [[b a]|] eqn:F; [|discriminate].
      intros H. inversion H. subst. destruct (IH _ _ eq_refl) as [Hs Hmin].
      split; [simpl; now rewrite <- Hs|].
      intros [|c' b'] a' Heq.
      * simpl in Heq. rewrite Heq, drop_prefix_app in E. discriminate.
      * simpl in Heq. inversion Heq. subst c'. simpl.
        specialize (Hmin b' a' H2). lia.
Qed.

Lemma find_first_none pat : forall s,
  find_first pat s = None -> forall before after, s <> before ++ pat ++ after.
Proof.
  induction s as [|c s IH]; simpl.
  - destruct (drop_prefix pat "") eqn:E; [discriminate|].
    intros _ [|c b] a Heq; simpl in Heq.
    + rewrite Heq, drop_prefix_app in E. discriminate.
    + discriminate.
  - destruct (drop_prefix pat (String c s)) eqn:E; [discriminate|].
    destruct (find_first pat s) as [[b a]|] eqn:F; [discriminate|].
    intros _ [|c' b'] a' Heq; simpl in Heq.
    + rewrite Heq, drop_prefix_app in E. discriminate.
    + inversion Heq. now apply (IH eq_refl b' a').
Qed.

(** Two splits of one text at the same length are the same split. *)
Lemma append_split_eq : forall b b' x x' : string,
  b ++ x = b' ++ x' -> String.length b = String.length b' ->
  b = b' /\ x = x'.
Proof.
  induction b as [|c b IH]; intros [|c' b'] x x' Heq Hlen; simpl in *;
    try discriminate; auto.
  inversion Heq. subst c'. destruct (IH b' x x' H1) as [-> ->]; auto.
Qed.

(** [find_first] finds the first occurrence, and only that. *)
Lemma find_first_iff pat s before after :
  find_first pat s = Some (before, after)
  <-> first_occurrence pat s before after.
Proof.
  split; [apply find_first_some|].
  intros [Hs Hmin].
  destruct (find_first pat s) as [[b a]|] eqn:Hf.
  - destruct (find_first_some _ _ Hf) as [Hs' Hmin'].
    assert (Hlen : String.length b = String.length before).
    { specialize (Hmin b a Hs'). specialize (Hmin' before after Hs). lia. }
    rewrite Hs in Hs'.
    destruct (append_split_eq _ _ _ _ Hs' (eq_sym Hlen)) as [-> Hrest].
    apply append_split_eq in Hrest; auto. destruct Hrest as [_ ->]. reflexivity.
  - now elim (find_first_none pat Hf before after).
Qed.

Lemma find_first_absent pat s :
  (forall before after, s <> before ++ pat ++ after) -> find_first pat s = None.
Proof.
  intros Habsent. destruct (find_first pat s) as [[b a]|] eqn:Hf; [|reflexivity].
  destruct (find_first_some _ _ Hf) as [Hs _]. now elim (Habsent b a).
Qed.

(** A text without [$] is its own expansion. *)
Lemma expand_no_dollar matched before after : forall template,
  no_dollar template = true -> expand matched before after template = template.
Proof.
  induction template as [|c r IH]; simpl; auto.
  destruct (Ascii.eqb c "$"); simpl; [discriminate|].
  intros H. now rewrite IH.
Qed.

Lemma replace_no_dollar s pat replacement before after :
  find_first pat s = Some (before, after) ->
  no_dollar replacement = true ->
  replace s pat replacement = before ++ replacement ++ after.
Proof.
  intros Hf Hn. unfold replace. now rewrite Hf, expand_no_dollar.
Qed.

(** ** Argument routing *)

Lemma lookup_app_fresh {A} (l : list (string * A)) k k' a :
  k' <> k -> lookup k' l = None -> lookup k' (l ++ [(k, a)]) = None.
Proof.
  intros Hne. induction l as [|[k0 a0] l IH]; simpl.
  - destruct (String.eqb k k') eqn:E; auto.
    apply String.eqb_eq in E. congruence.
  - destruct (String.eqb k0 k'); [discriminate|]. auto.
Qed.

(** One turn of the router, bag by bag. *)
Lemma route_entry_bags parameters bodyPropertyNames acc kv :
  route_entry parameters bodyPropertyNames acc kv =
  {| pathParams :=
       if routed_to parameters "path" kv
       then obj_set (pathParams acc) (fst kv) (snd kv) else pathParams acc;
     queryParams :=
       if routed_to parameters "query" kv
       then obj_set (queryParams acc) (fst kv) (snd kv) else queryParams acc;
     bodyParams :=
       if routed_to_body parameters bodyPropertyNames kv
       then obj_set (bodyParams acc) (fst kv) (snd kv) else bodyParams acc |}.
Proof.
  unfold route_entry, routed_to, routed_to_body.
  destruct (find_param parameters (fst kv)) as [param|].
  - destruct (String.eqb (p_in param) "path") eqn:Epath.
    + apply String.eqb_eq in Epath. rewrite Epath. reflexivity.
    + destruct (String.eqb (p_in param) "query"); now destruct acc.
  - destruct (existsb _ _); now destruct acc.
Qed.

Lemma bag_step {A} (bag rest : list (string * A)) k a (c : bool) :
  lookup k bag = None ->
  ((if c then obj_set bag k a else bag) ++ rest
   = bag ++ (if c then (k, a) :: rest else rest))%list.
Proof.
  intros H. destruct c; [|reflexivity].
  now rewrite (keys_obj_set_fresh _ _ a H), <- app_assoc.
Qed.

Lemma bag_fresh {A} (bag : list (string * A)) k k' a (c : bool) :
  k' <> k -> lookup k' bag = None ->
  lookup k' (if c then obj_set bag k a else bag) = None.
Proof.
  intros Hne H. destruct c; [|exact H].
  now rewrite lookup_obj_set_other.
Qed.

Lemma route_from parameters bodyPropertyNames : forall input acc,
  NoDup (map fst input) ->
  (forall k, In k (map fst input) ->
     lookup k (pathParams acc) = None
     /\ lookup k (queryParams acc) = None
     /\ lookup k (bodyParams acc) = None) ->
  fold_left (route_entry parameters bodyPropertyNames) input acc =
  {| pathParams :=
       pathParams acc ++ filter (routed_to parameters "path") input;
     queryParams :=
       queryParams acc ++ filter (routed_to parameters "query") input;
     bodyParams :=
       bodyParams acc
       ++ filter (routed_to_body parameters bodyPropertyNames) input |}%list.
Proof.
  induction input as [|[k v] input IH]; intros acc Hnd Hfresh.
  - simpl. rewrite !app_nil_r. now destruct acc.
  - inversion Hnd as [|? ? Hnotin Hnd']. subst.
    destruct (Hfresh k (or_introl eq_refl)) as [Hp [Hq Hb]].
    cbn [fold_left filter]. rewrite route_entry_bags, IH; auto.
    + cbn [pathParams queryParams bodyParams fst snd].
      rewrite !bag_step by assumption. reflexivity.
    + intros k' Hin. cbn [pathParams queryParams bodyParams fst snd].
      assert (Hne : k' <> k) by (intros ->; contradiction).
      destruct (Hfresh k' (or_intror Hin)) as [Hp' [Hq' Hb']].
      repeat split; apply bag_fresh; auto.
Qed.

(** The three bags are the arguments of each kind, in argument order. *)
Lemma route_filters parameters bodyPropertyNames input :
  NoDup (map fst input) ->
  route parameters bodyPropertyNames input =
  {| pathParams := filter (routed_to parameters "path") input;
     queryParams := filter (routed_to parameters "query") input;
     bodyParams := filter (routed_to_body parameters bodyPropertyNames) input |}.
Proof.
  intros Hnd. unfold route. rewrite route_from; auto.
Qed.

(** An argument whose parameter is neither in the path nor in the query
    leaves the router as it found it. *)
Lemma route_entry_elsewhere parameters bodyPropertyNames acc key v param :
  find_param parameters key = Some param ->
  p_in param <> "path" -> p_in param <> "query" ->
  route_entry parameters bodyPropertyNames acc (key, v) = acc.
Proof.
  intros Hfind Hpath Hquery. unfold route_entry. cbn [fst snd]. rewrite Hfind.
  apply String.eqb_neq in Hpath, Hquery. now rewrite Hpath, Hquery.
Qed.

(** An argument that names no parameter and no body field does the same. *)
Lemma route_entry_unknown parameters bodyPropertyNames acc key v :
  find_param parameters key = None ->
  existsb (String.eqb key) bodyPropertyNames = false ->
  route_entry parameters bodyPropertyNames acc (key, v) = acc.
Proof.
  intros Hfind Hbody. unfold route_entry. cbn [fst snd].
  now rewrite Hfind, Hbody.
Qed.

Lemma find_param_unique parameters param :
  NoDup (map p_name parameters) ->
  In param parameters ->
  find_param parameters (p_name param) = Some param.
Proof.
  unfold find_param.
  induction parameters as [|p ps IH]; intros Hnd Hin; [contradiction|].
  inversion Hnd as [|? ? Hnotin Hnd']. subst. simpl.
  destruct Hin as [->|Hin].
  - now rewrite String.eqb_refl.
  - destruct (String.eqb (p_name p) (p_name param)) eqn:E.
    + apply String.eqb_eq in E. elim Hnotin. rewrite E. now apply in_map.
    + auto.
Qed.

(** ** Spreading one object over another *)

Lemma obj_set_keys {A} (l : list (string * A)) k a x :
  In x (map fst (obj_set l k a)) -> x = k \/ In x (map fst l).
Proof.
  induction l as [|[k' a'] l IH]; simpl.
  - intros [H|[]]. now left.
  - destruct (String.eqb k' k); simpl; intros [H|H]; auto.
    destruct (IH H); auto.
Qed.

Lemma obj_set_nodup {A} (l : list (string * A)) k a :
  NoDup (map fst l) -> NoDup (map fst (obj_set l k a)).
Proof.
  induction l as [|[k' a'] l IH]; simpl; intros Hnd.
  - constructor; [intros [] | constructor].
  - inversion Hnd as [|? ? Hnotin Hnd']. subst.
    destruct (String.eqb k' k) eqn:E; simpl.
    + now constructor.
    + constructor; auto. intros Hin.
      destruct (obj_set_keys _ _ _ _ Hin) as [->|H]; [|contradiction].
      rewrite String.eqb_refl in E. discriminate.
Qed.

Lemma obj_fold_nodup {X B} (key : X -> string) (f : X -> outcome B) l :
  forall acc shape,
    fold_left (obj_step key f) l (Ret acc) = Ret shape ->
    NoDup (map fst acc) -> NoDup (map fst shape).
Proof.
  induction l as [|x l IH]; intros acc shape Hfold Hnd.
  - simpl in Hfold. now inversion Hfold; subst.
  - rewrite obj_fold_cons in Hfold. destruct (f x); try discriminate.
    eapply IH; [exact Hfold|]. now apply obj_set_nodup.
Qed.

Lemma lookup_spread_absent {A} (m : list (string * A)) : forall l k,
  ~ In k (map fst m) -> lookup k (obj_spread l m) = lookup k l.
Proof.
  unfold obj_spread.
  induction m as [|[k' a] m IH]; intros l k Hnotin; simpl; auto.
  rewrite IH by (intros H; apply Hnotin; now right).
  apply lookup_obj_set_other. intros ->. apply Hnotin. now left.
Qed.

(** In [{...l, ...m}] the entries of [m] win. *)
Lemma lookup_spread {A} (m : list (string * A)) : forall l k z,
  NoDup (map fst m) ->
  lookup k m = Some z -> lookup k (obj_spread l m) = Some z.
Proof.
  induction m as [|[k' a] m IH]; intros l k z Hnd Hk; [discriminate|].
  inversion Hnd as [|? ? Hnotin Hnd']. subst. simpl in Hk.
  change (obj_spread l ((k', a) :: m)) with (obj_spread (obj_set l k' a) m).
  destruct (String.eqb k' k) eqn:E.
  - apply String.eqb_eq in E. subst k'. inversion Hk. subst a.
    rewrite lookup_spread_absent by exact Hnotin.
    apply lookup_obj_set_same.
  - now apply IH.
Qed.

Lemma bodySchema_nodup doc fuel requestBodySchema bodySchema :
  bodySchema_of doc fuel requestBodySchema = Ret bodySchema ->
  NoDup (map fst bodySchema).
Proof.
  unfold bodySchema_of. destruct (truthy _).
  - intros H.
    apply (@obj_fold_nodup _ _ fst
             (fun kv => convertSchemaPropertyToZod doc fuel (snd kv) true)
             _ _ _ H).
    constructor.
  - intros H. inversion H. constructor.
Qed.

(** *** Routing of the call arguments *)

(** C5, counterexample: the argument [{id: "$&"}] on [/items/{id}].  The
    string goes to [String.prototype.replace] as the replacement text, where
    [$&] stands for the matched text, so the path comes back unchanged. *)
Lemma C5_replacement_pattern_counterexample :
  ~ path_argument_replaces_placeholder
  /\ r_path (run_handler "/items/{id}" "get" [id_param] VNull VUndef
               [("id", VStr "$&")])
     = "/items/{id}".
Proof.
  split; [|reflexivity].
  intros H.
  assert (Hfirst : first_occurrence "{id}" "/items/{id}" "/items/" "")
    by (apply find_first_iff; reflexivity).
  specialize (H "/items/{id}" "get" [id_param] VNull VUndef "id" (VStr "$&")
                id_param "/items/" "" eq_refl eq_refl Hfirst).
  vm_compute in H. discriminate.
Qed.

(** C5 (amended): the handler sorts the arguments by the first declared
    parameter of their name.  Those with location path are substituted, in
    argument order, each for the first [{name}] of the path as the earlier
    substitutions left it; the string of the value is the replacement text
    of [replace], inserted as it is when it holds no [$].  Those with
    location query make the query, as strings.  Those with no parameter and
    a declared body-field name make the body, which every method but get
    sends.  All the others are dropped, and the handler always gives a
    request.  For [/items/{id}] with path parameter [id], body field [name]
    and arguments [{id: "42", name: "widget", extra: "x"}] the path is
    [/items/42], the query is empty and the body is [{name: "widget"}]. *)
Theorem C5_arguments_routed_by_declaration
    (refPath method : string) (parameters : list Param)
    (requestBodySchema credential : value) (input : list (string * value)) :
  NoDup (map fst input) ->
  let request :=
    run_handler refPath method parameters requestBodySchema credential input in
  let bodyNames := bodyPropertyNames_of requestBodySchema in
  r_path request
  = substitute refPath (filter (routed_to parameters "path") input)
  /\ r_query request
     = map (fun kv => (fst kv, ToString (snd kv)))
         (filter (routed_to parameters "query") input)
  /\ r_body request
     = (if String.eqb method "get" then None
        else Some (filter (routed_to_body parameters bodyNames) input))
  /\ (forall path key v rest before after,
        first_occurrence ("{" ++ key ++ "}") path before after ->
        no_dollar (ToString v) = true ->
        substitute path ((key, v) :: rest)
        = substitute (before ++ ToString v ++ after) rest)
  /\ (forall path key v rest,
        (forall before after, path <> before ++ ("{" ++ key ++ "}") ++ after) ->
        substitute path ((key, v) :: rest) = substitute path rest)
  /\ (forall pre post key v,
        find_param parameters key = None ->
        existsb (String.eqb key) bodyNames = false ->
        run_handler refPath method parameters requestBodySchema credential
          (pre ++ (key, v) :: post)
        = run_handler refPath method parameters requestBodySchema credential
            (pre ++ post))
  /\ (let r := run_handler "/items/{id}" "post" [id_param] item_body credential
                 widget_call in
      r_path r = "/items/42"
      /\ r_query r = []
      /\ r_body r = Some [("name", VStr "widget")]).
Proof.
  intros Hnd request bodyNames.
  assert (Hroute := route_filters parameters bodyNames input Hnd).
  subst request. unfold run_handler. fold bodyNames. rewrite Hroute.
  cbn [pathParams queryParams bodyParams].
  split; [|split; [|split; [|split; [|split; [|split]]]]].
  - destruct (String.eqb method "get"); reflexivity.
  - destruct (String.eqb method "get"); reflexivity.
  - destruct (String.eqb method "get"); reflexivity.
  - intros path key v rest before after Hfirst Hplain.
    apply find_first_iff in Hfirst.
    unfold substitute. cbn [fold_left fst snd].
    now rewrite (replace_no_dollar _ _ _ Hfirst Hplain).
  - intros path key v rest Habsent.
    apply find_first_absent in Habsent.
    unfold substitute. cbn [fold_left fst snd]. unfold replace.
    now rewrite Habsent.
  - intros pre post key v Hfind Hbody. unfold route.
    rewrite !fold_left_app. cbn [fold_left].
    now rewrite (route_entry_unknown parameters bodyNames _ key v Hfind Hbody).
  - cbv zeta. repeat split.
Qed.

Lemma C5_arguments_routed_by_declaration_witness :
  r_path (run_handler "/items/{id}" "post" [id_param] item_body (VStr "token")
            widget_call)
  = substitute "/items/{id}" [("id", VStr "42")]
  /\ substitute "/items/{id}" [("id", VStr "42")] = "/items/42".
Proof.
  split; [|reflexivity].
  assert (Hnd : NoDup (map fst widget_call)).
  { repeat constructor; simpl; intros H;
      repeat (destruct H as [H|H]; [discriminate|]); exact H. }
  destruct (@C5_arguments_routed_by_declaration "/items/{id}" "post" [id_param]
              item_body (VStr "token") widget_call Hnd) as [Hpath _].
  exact Hpath.
Defined.

(** *** Parameters before body fields *)

Lemma route_drops parameters bodyPropertyNames pre post key v param :
  find_param parameters key = Some param ->
  p_in param <> "path" -> p_in param <> "query" ->
  route parameters bodyPropertyNames (pre ++ (key, v) :: post)
  = route parameters bodyPropertyNames (pre ++ post).
Proof.
  intros Hfind Hpath Hquery. unfold route.
  rewrite !fold_left_app. cbn [fold_left].
  erewrite route_entry_elsewhere; eauto.
Qed.

(** C10: at call time the parameter list is asked first.  An argument whose
    name finds a declared parameter located neither in the path nor in the
    query changes nothing: the request is the one the call would make
    without it, whether or not the body schema declares a field of that
    name.  With parameter names unique within the operation, that holds of
    every declared parameter of that name.  At compile time it is the other
    way round: in the input schema a body field takes the place of a
    parameter field of the same name. *)
Theorem C10_parameter_lookup_precedes_body
    (doc : Document) (fuel : nat) (refPath method : string)
    (parameters : list Param) (requestBodySchema credential : value)
    (pre post : list (string * value)) (key : string) (v : value)
    (param : Param) :
  p_in param <> "path" -> p_in param <> "query" ->
  (find_param parameters key = Some param ->
   route parameters (bodyPropertyNames_of requestBodySchema)
     (pre ++ (key, v) :: post)
   = route parameters (bodyPropertyNames_of requestBodySchema) (pre ++ post)
   /\ run_handler refPath method parameters requestBodySchema credential
        (pre ++ (key, v) :: post)
      = run_handler refPath method parameters requestBodySchema credential
          (pre ++ post))
  /\ (NoDup (map p_name parameters) -> In param parameters ->
      run_handler refPath method parameters requestBodySchema credential
        (pre ++ (p_name param, v) :: post)
      = run_handler refPath method parameters requestBodySchema credential
          (pre ++ post))
  /\ (forall sel tool_name tool_description t bodySchema k zb,
        build_tool doc fuel refPath sel tool_name tool_description = Ret t ->
        bodySchema_of doc fuel (sel_requestBodySchema sel) = Ret bodySchema ->
        lookup k bodySchema = Some zb ->
        lookup k (inputSchema t) = Some zb).
Proof.
  intros Hpath Hquery.
  assert (Hdrop : forall key',
             find_param parameters key' = Some param ->
             run_handler refPath method parameters requestBodySchema credential
               (pre ++ (key', v) :: post)
             = run_handler refPath method parameters requestBodySchema
                 credential (pre ++ post)).
  { intros key' Hfind. unfold run_handler.
    erewrite route_drops; eauto. }
  split; [|split].
  - intros Hfind. split; [|now apply Hdrop].
    eapply route_drops; eauto.
  - intros Hnd Hin. apply Hdrop. now apply find_param_unique.
  - intros sel tool_name tool_description t bodySchema k zb Hbuild Hbody Hk.
    unfold build_tool in Hbuild.
    destruct (parameterSchema_of doc fuel (sel_parameters sel)) as [ps| |];
      cbn [bind] in Hbuild; try discriminate.
    rewrite Hbody in Hbuild. cbn [bind] in Hbuild. inversion Hbuild.
    cbn [inputSchema]. apply lookup_spread; [|exact Hk].
    eapply bodySchema_nodup; eauto.
Qed.

Lemma C10_parameter_lookup_precedes_body_witness :
  run_handler "/items/{id}" "post" shadowing_params tagged_body (VStr "token")
    ([("id", VStr "42")] ++ ("name", VStr "widget") :: [("tag", VStr "new")])
  = run_handler "/items/{id}" "post" shadowing_params tagged_body (VStr "token")
      ([("id", VStr "42")] ++ [("tag", VStr "new")])
  /\ r_body (run_handler "/items/{id}" "post" shadowing_params tagged_body
               (VStr "token") [("id", VStr "42"); ("name", VStr "widget");
                               ("tag", VStr "new")])
     = Some []
  /\ exists t,
       build_tool alias_doc 2 "/items/{id}" shadowing_selection "CreateItem" None
       = Ret t
       /\ lookup "tag" (inputSchema t) = Some (ZOptional ZString).
Proof.
  pose (header_name :=
          {| p_name := "name"; p_in := "header";
             p_schema := VObj [("type", VStr "string")] |}).
  assert (Hpath : p_in header_name <> "path") by discriminate.
  assert (Hquery : p_in header_name <> "query") by discriminate.
  split; [|split].
  - destruct (@C10_parameter_lookup_precedes_body alias_doc 2 "/items/{id}" "post"
                shadowing_params tagged_body (VStr "token")
                [("id", VStr "42")] [("tag", VStr "new")] "name" (VStr "widget")
                header_name Hpath Hquery) as [H _].
    destruct (H eq_refl) as [_ Hrun]. exact Hrun.
  - reflexivity.
  - destruct (build_tool alias_doc 2 "/items/{id}" shadowing_selection
                "CreateItem" None) as [t| |] eqn:Hb;
      try (vm_compute in Hb; discriminate).
    exists t. split; [reflexivity|].
    destruct (@C10_parameter_lookup_precedes_body alias_doc 2 "/items/{id}" "post"
                shadowing_params tagged_body (VStr "token")
                [("id", VStr "42")] [("tag", VStr "new")] "name" (VStr "widget")
                header_name Hpath Hquery) as [_ [_ H]].
    apply (H shadowing_selection "CreateItem" None t
             [("name", ZOptional ZString); ("tag", ZOptional ZString)]).
    + exact Hb.
    + reflexivity.
    + reflexivity.
Defined.

(** ** Assembly and the allow-list *)

Lemma filter_subseq {A} (p : A -> bool) (l : list A) : subseq (filter p l) l.
Proof.
  induction l as [|x l IH]; simpl; [constructor|].
  destruct (p x); now constructor.
Qed.

(** C6: with [allowAllTools] false and a non-empty [allowedTools], the
    registered sequence keeps exactly the tools whose name is in the list
    and leaves them in their order; with [allowAllTools] true, or the list
    empty or missing, the sequence is the one assembled.  With
    [allowedTools: ["X"]], tools named X, Y, Z filter to the one named X. *)
Theorem C6_allow_list_filter
    (cfg : AllowedToolsConfig) (tools : list Tool) (names : list string)
    (x y z : Tool) :
  (allowAllTools cfg = false -> allowedTools cfg = Some names -> names <> [] ->
   Main.filter_tools cfg tools
   = filter (fun tool => existsb (String.eqb (name tool)) names) tools
   /\ subseq (Main.filter_tools cfg tools) tools
   /\ forall tool, In tool (Main.filter_tools cfg tools)
                   <-> In tool tools /\ In (name tool) names)
  /\ (allowAllTools cfg = true \/ allowedTools cfg = Some []
      \/ allowedTools cfg = None ->
      Main.filter_tools cfg tools = tools)
  /\ (name x = "X" -> name y = "Y" -> name z = "Z" ->
      Main.filter_tools {| allowedTools := Some ["X"]; allowAllTools := false |}
        [x; y; z] = [x]).
Proof.
  split; [|split].
  - intros Hall Hnames Hne.
    assert (Heq : Main.filter_tools cfg tools
                  = filter (fun tool => existsb (String.eqb (name tool)) names) tools).
    { unfold Main.filter_tools. rewrite Hall, Hnames.
      destruct names; [now elim Hne | reflexivity]. }
    rewrite Heq. split; [reflexivity|]. split; [apply filter_subseq|].
    intros tool. rewrite filter_In, existsb_eqb_In. tauto.
  - unfold Main.filter_tools. intros [H|[H|H]]; rewrite H.
    + reflexivity.
    + now destruct (negb (allowAllTools cfg)).
    + now destruct (negb (allowAllTools cfg)).
  - intros Hx Hy Hz. unfold Main.filter_tools. cbn. now rewrite Hx, Hy, Hz.
Qed.

Lemma C6_allow_list_filter_witness :
  Main.filter_tools {| allowedTools := Some ["X"]; allowAllTools := false |}
    [stub_tool "X"; stub_tool "Y"; stub_tool "Z"]
  = [stub_tool "X"]
  /\ Main.filter_tools {| allowedTools := Some ["X"]; allowAllTools := true |}
       [stub_tool "X"; stub_tool "Y"; stub_tool "Z"]
     = [stub_tool "X"; stub_tool "Y"; stub_tool "Z"].
Proof.
  destruct (@C6_allow_list_filter
              {| allowedTools := Some ["X"]; allowAllTools := true |}
              [stub_tool "X"; stub_tool "Y"; stub_tool "Z"] ["X"]
              (stub_tool "X") (stub_tool "Y") (stub_tool "Z"))
    as [_ [Hall Hxyz]].
  split.
  - apply Hxyz; reflexivity.
  - apply Hall. left. reflexivity.
Defined.

(** C9: with the store document compiled, a login that fails leaves exactly
    the store tools, as a result and not as a failure of [main]; a login
    that succeeds, with the admin document compiled too, gives the store
    tools followed by the admin tools.  The allow-list is applied to that
    sequence in both cases. *)
Theorem C9_login_failure_keeps_store_tools
    (storeJson adminJson : Document) (fuel : nat) (cfg : AllowedToolsConfig)
    (storeTools : list Tool) :
  Store.defineTools storeJson fuel = Ret storeTools ->
  (forall error,
      Main.assemble storeJson adminJson fuel (Throw error) = Ret storeTools
      /\ Main.main storeJson adminJson fuel cfg (Throw error)
         = Ret (Main.filter_tools cfg storeTools))
  /\ (forall adminToken adminTools,
        Admin.defineTools adminJson fuel = Ret adminTools ->
        Main.assemble storeJson adminJson fuel (Ret adminToken)
        = Ret (storeTools ++ adminTools)%list
        /\ Main.main storeJson adminJson fuel cfg (Ret adminToken)
           = Ret (Main.filter_tools cfg (storeTools ++ adminTools)%list)).
Proof.
  intros Hstore. split.
  - intros error. unfold Main.main, Main.assemble. cbn [bind].
    rewrite Hstore. auto.
  - intros adminToken adminTools Hadmin. unfold Main.main, Main.assemble.
    cbn [bind]. rewrite Hstore, Hadmin. auto.
Qed.

Lemma C9_login_failure_keeps_store_tools_witness :
  exists storeTools adminTools,
    Store.defineTools ping_doc 1 = Ret storeTools
    /\ Admin.defineTools items_doc 1 = Ret adminTools
    /\ Main.assemble ping_doc items_doc 1 (Throw (Error "Unauthorized"))
       = Ret storeTools
    /\ Main.assemble ping_doc items_doc 1 (Ret "token")
       = Ret (storeTools ++ adminTools)%list
    /\ map name (storeTools ++ adminTools)%list = ["Ping"; "AdminListItems"].
Proof.
  destruct (Store.defineTools ping_doc 1) as [s| |] eqn:Hs;
    try (vm_compute in Hs; discriminate).
  destruct (Admin.defineTools items_doc 1) as [a| |] eqn:Ha;
    try (vm_compute in Ha; discriminate).
  exists s, a.
  destruct (@C9_login_failure_keeps_store_tools ping_doc items_doc 1
              {| allowedTools := None; allowAllTools := true |} s Hs)
    as [Hfail Hok].
  split; [reflexivity|]. split; [reflexivity|].
  split; [exact (proj1 (Hfail (Error "Unauthorized")))|].
  split; [exact (proj1 (Hok "token" a Ha))|].
  vm_compute in Hs. inversion Hs. vm_compute in Ha. inversion Ha. reflexivity.
Defined.
